(** * Options analyzer: the analytics of [Analysis.js] and the leg form of
    [StrategyForm.js], embedded over IEEE-754 binary64 numbers.

    A JavaScript Number is a binary64 float, so the embedding computes with
    Rocq's primitive floats: [+ - * /], [sqrt], [abs] and the comparisons are
    the processor's, NaN and the signed zeros and infinities included.
    [Math.exp], [Math.log] and [Math.random] are implementation-approximated
    by the engine; they are the fields of the [Host] interface below. *)

From Stdlib Require Import Floats List ZArith Bool String Lia Sorted.
From Stdlib Require Import Ascii Permutation DecimalString.
Import ListNotations.

Set Warnings "-inexact-float".
Local Open Scope float_scope.

(** ** JavaScript numbers *)

Module JS.

Definition number := float.

Definition is_pos_zero (x : number) : bool := Leibniz.eqb x 0.
Definition is_neg_zero (x : number) : bool := Leibniz.eqb x (-0).

(** [Math.max(x, y)]: NaN if either is NaN; +0 is larger than -0. *)
Definition Math_max (x y : number) : number :=
  if is_nan x || is_nan y then nan
  else if is_neg_zero x && is_pos_zero y then y
  else if x <? y then y
  else x.

(** [Math.min(x, y)]: NaN if either is NaN; -0 is smaller than +0. *)
Definition Math_min (x y : number) : number :=
  if is_nan x || is_nan y then nan
  else if is_pos_zero x && is_neg_zero y then y
  else if y <? x then y
  else x.

Definition Math_abs (x : number) : number := abs x.
Definition Math_sqrt (x : number) : number := sqrt x.
Definition Math_PI : number := 3.141592653589793.

(** [ToBoolean] of a Number: false for +0, -0 and NaN. *)
Definition truthy (x : number) : bool := negb (is_nan x || is_zero x).

(** [x || d] on Numbers. *)
Definition or_default (x d : number) : number := if truthy x then x else d.

(** A zero of either sign, or NaN; an infinity of either sign, or NaN. *)
Definition zeroish (x : number) : Prop := x = 0 \/ x = -0 \/ x = nan.
Definition infish (x : number) : Prop :=
  x = infinity \/ x = neg_infinity \/ x = nan.

(** The Number of a count (exact below 2^53). *)
Definition of_nat (n : nat) : number :=
  of_uint63 (Uint63.of_Z (Z.of_nat n)).

(** The values a [for] loop's variable takes:
    [for (let x = x0; guard(x); x = next(x)) ...].  The body never assigns
    the loop variable in this program, so the values do not depend on it.
    [fuel] bounds the unrolling; [for_exits] says the guard ended the loop. *)
Fixpoint for_values (fuel : nat) (guard : number -> bool)
         (next : number -> number) (x : number) : list number :=
  match fuel with
  | O => []
  | S n => if guard x then x :: for_values n guard next (next x) else []
  end.

Fixpoint for_exits (fuel : nat) (guard : number -> bool)
         (next : number -> number) (x : number) : bool :=
  match fuel with
  | O => negb (guard x)
  | S n => if guard x then for_exits n guard next (next x) else true
  end.

End JS.
Import JS.

(** The engine's part of [Math]: the approximated transcendental functions
    and the pseudo-random source, whose state is threaded explicitly. *)
Class Host := {
  Math_exp : number -> number;
  Math_log : number -> number;
  rng : Type;
  Math_random : rng -> number * rng
}.

(** What ECMAScript fixes of [Math.exp] at the special values. *)
Class HostSpec (H : Host) : Prop := {
  exp_nan : Math_exp nan = nan;
  exp_neg_infinity : Math_exp neg_infinity = 0
}.

(** ** Legs *)

Inductive OptionType := call | put.
Inductive Action := buy | sell.

(** One element of [strategy.options].  [volatility] may be missing on a leg
    that did not come from the form. *)
Record OptionLeg := {
  strike : number;
  type : OptionType;
  action : Action;
  quantity : number;
  premium : number;
  volatility : option number
}.

(** ** Payoff *)

(** The body of the [options.forEach] that [calculateBreakeven],
    [calculateMaxProfit], [calculateMaxLoss] and
    [calculateProbabilityOfProfit] each repeat verbatim. *)
Definition optionPayoff (opt : OptionLeg) (price : number) : number :=
  match type opt with
  | call =>
      match action opt with
      | buy => Math_max 0 (price - strike opt) - premium opt
      | sell => premium opt - Math_max 0 (price - strike opt)
      end
  | put =>
      match action opt with
      | buy => Math_max 0 (strike opt - price) - premium opt
      | sell => premium opt - Math_max 0 (strike opt - price)
      end
  end.

(** [let payoff = 0; options.forEach(o => payoff += optionPayoff * o.quantity)] *)
Definition totalPayoff (options : list OptionLeg) (price : number) : number :=
  fold_left (fun payoff opt => payoff + optionPayoff opt price * quantity opt)
            options 0.

(** ** Price sweeps *)

(** [for (let price = 50; price <= 250; price += step)] *)
Definition sweep (step : number) : list number :=
  for_values 1000 (fun price => price <=? 250) (fun price => price + step) 50.

Definition calculateBreakeven (options : list OptionLeg) : list number :=
  fold_left (fun breakevens price =>
               if Math_abs (totalPayoff options price) <? 0.01
               then breakevens ++ [price] else breakevens)
            (sweep 0.5) [].

Definition calculateMaxProfit (options : list OptionLeg) : number :=
  fold_left (fun maxProfit price => Math_max maxProfit (totalPayoff options price))
            (sweep 1) 0.

Definition calculateMaxLoss (options : list OptionLeg) : number :=
  fold_left (fun maxLoss price => Math_min maxLoss (totalPayoff options price))
            (sweep 1) 0.

(** ** Greeks *)

Record Greeks := {
  delta : number;
  gamma : number;
  theta : number;
  vega : number;
  rho : number
}.

Section Analytics.
Context {H : Host}.

(** The error-function approximation inside [calculateBlackScholesGreeks]. *)
Definition erf (x0 : number) : number :=
  let a1 := 0.254829592 in
  let a2 := -0.284496736 in
  let a3 := 1.421413741 in
  let a4 := -1.453152027 in
  let a5 := 1.061405429 in
  let p := 0.3275911 in
  let sign := if 0 <=? x0 then 1 else -1 in
  let x := Math_abs x0 in
  let t := 1.0 / (1.0 + p * x) in
  let y := 1.0 - (((((a5 * t + a4) * t) + a3) * t + a2) * t + a1) * t
                 * Math_exp ((- x) * x) in
  sign * y.

Definition normCDF (x : number) : number :=
  0.5 * (1 + erf (x / Math_sqrt 2)).

Definition normPDF (x : number) : number :=
  Math_exp (-0.5 * x * x) / Math_sqrt (2 * Math_PI).

Definition bs_d1 (S K T r sigma : number) : number :=
  (Math_log (S / K) + (r + 0.5 * sigma * sigma) * T) / (sigma * Math_sqrt T).

Definition bs_d2 (S K T r sigma : number) : number :=
  bs_d1 S K T r sigma - sigma * Math_sqrt T.

Definition calculateBlackScholesGreeks
           (S K T r sigma : number) (optionType : OptionType) : Greeks :=
  let d1 := bs_d1 S K T r sigma in
  let d2 := bs_d2 S K T r sigma in
  let '(delta, theta, rho) :=
    match optionType with
    | call =>
        (normCDF d1,
         (- (S * normPDF d1 * sigma)) / (2 * Math_sqrt T)
           - r * K * Math_exp ((- r) * T) * normCDF d2,
         K * T * Math_exp ((- r) * T) * normCDF d2)
    | put =>
        (normCDF d1 - 1,
         (- (S * normPDF d1 * sigma)) / (2 * Math_sqrt T)
           + r * K * Math_exp ((- r) * T) * normCDF (- d2),
         (- K) * T * Math_exp ((- r) * T) * normCDF (- d2))
    end in
  let gamma := normPDF d1 / (S * sigma * Math_sqrt T) in
  let vega := S * normPDF d1 * Math_sqrt T in
  {| delta := delta; gamma := gamma; theta := theta / 365;
     vega := vega / 100; rho := rho / 100 |}.

(** [(action === 'buy' ? 1 : -1) * quantity] *)
Definition multiplier (opt : OptionLeg) : number :=
  (match action opt with buy => 1 | sell => -1 end) * quantity opt.

(** [const { ..., volatility = 0.2 } = option]: the default replaces a
    missing field only. *)
Definition volatility_or_default (opt : OptionLeg) : number :=
  match volatility opt with Some v => v | None => 0.2 end.

Definition calculateGreeks (options : list OptionLeg) (spotPrice : number)
  : Greeks :=
  fold_left
    (fun tot opt =>
       let timeToExpiry := 30 / 365 in
       let riskFreeRate := 0.05 in
       let greeks := calculateBlackScholesGreeks
                       spotPrice (strike opt) timeToExpiry riskFreeRate
                       (volatility_or_default opt) (type opt) in
       let multiplier := multiplier opt in
       {| delta := delta tot + delta greeks * multiplier;
          gamma := gamma tot + gamma greeks * multiplier;
          theta := theta tot + theta greeks * multiplier;
          vega := vega tot + vega greeks * multiplier;
          rho := rho tot + rho greeks * multiplier |})
    options
    {| delta := 0; gamma := 0; theta := 0; vega := 0; rho := 0 |}.

(** ** Probability of profit *)

Definition numSimulations : number := 1000.

(** [for (let i = 0; i < numSimulations; i++)] *)
Definition trials : list number :=
  for_values 2000 (fun i => i <? numSimulations) (fun i => i + 1) 0.

Definition randomPrice (currentPrice u : number) : number :=
  let volatility := 0.2 in
  let timeToExpiry := 30 / 365 in
  currentPrice * Math_exp ((u - 0.5) * volatility * Math_sqrt timeToExpiry * 2).

(** One iteration: a draw, the payoff at the drawn price, the counter. *)
Definition trial (options : list OptionLeg) (currentPrice : number)
           (st : number * rng) : number * rng :=
  let '(profitableOutcomes, g) := st in
  let '(u, g') := Math_random g in
  let totalPayoff := totalPayoff options (randomPrice currentPrice u) in
  (if 0 <? totalPayoff then profitableOutcomes + 1 else profitableOutcomes, g').

Definition simulate (options : list OptionLeg) (currentPrice : number)
           (g : rng) : number * rng :=
  fold_left (fun st _ => trial options currentPrice st) trials (0, g).

Definition calculateProbabilityOfProfit
           (options : list OptionLeg) (currentPrice : number) (g : rng)
  : number * rng :=
  let '(profitableOutcomes, g') := simulate options currentPrice g in
  ((profitableOutcomes / numSimulations) * 100, g').

(** ** Sensitivity series *)

Record TimeDecayPoint := { days : number; td_theta : number }.
Record VolImpactPoint := { vi_volatility : number; vi_vega : number }.

(** [for (let days = 30; days >= 0; days--)] *)
Definition daysLoop : list number :=
  for_values 100 (fun days => 0 <=? days) (fun days => days - 1) 30.

(** [currentPrice] is the component's prop, read from the closure. *)
Definition calculateTimeDecay (currentPrice : number)
           (options : list OptionLeg) : list TimeDecayPoint :=
  map (fun d =>
         let timeToExpiry := d / 365 in
         let totalTheta :=
           fold_left
             (fun totalTheta opt =>
                let greeks := calculateBlackScholesGreeks
                                currentPrice (strike opt) timeToExpiry 0.05
                                (match volatility opt with
                                 | Some v => or_default v 0.2
                                 | None => 0.2
                                 end)
                                (type opt) in
                totalTheta + theta greeks * multiplier opt)
             options 0 in
         {| days := 30 - d; td_theta := totalTheta |})
      daysLoop.

(** [for (let vol = 0.1; vol <= 0.5; vol += 0.05)] *)
Definition volLoop : list number :=
  for_values 100 (fun vol => vol <=? 0.5) (fun vol => vol + 0.05) 0.1.

Definition totalVegaAt (options : list OptionLeg) (spotPrice vol : number)
  : number :=
  fold_left
    (fun totalVega opt =>
       let greeks := calculateBlackScholesGreeks
                       spotPrice (strike opt) (30 / 365) 0.05 vol (type opt) in
       totalVega + vega greeks * multiplier opt)
    options 0.

Definition calculateVolatilityImpact (options : list OptionLeg)
           (spotPrice : number) : list VolImpactPoint :=
  map (fun vol => {| vi_volatility := vol * 100;
                     vi_vega := totalVegaAt options spotPrice vol |})
      volLoop.

(** ** The analysis record and the component *)

Record AnalysisData := {
  greeks : option Greeks;     (* [{}] before the first analysis *)
  breakeven : list number;
  maxProfit : number;
  maxLoss : number;
  probabilityOfProfit : number;
  riskReward : number;
  timeDecay : list TimeDecayPoint;
  volatilityImpact : list VolImpactPoint
}.

(** The argument of [useState]. *)
Definition initialAnalysisData : AnalysisData :=
  {| greeks := None; breakeven := []; maxProfit := 0; maxLoss := 0;
     probabilityOfProfit := 0; riskReward := 0;
     timeDecay := []; volatilityImpact := [] |}.

(** [calculateAnalysis]: the record is built with [riskReward: 0], which is
    then overwritten by [maxProfit / Math.abs(maxLoss)]. *)
Definition calculateAnalysis (options : list OptionLeg)
           (currentPrice : number) (g : rng) : AnalysisData * rng :=
  let '(pop, g') := calculateProbabilityOfProfit options currentPrice g in
  let maxProfit := calculateMaxProfit options in
  let maxLoss := calculateMaxLoss options in
  ({| greeks := Some (calculateGreeks options currentPrice);
      breakeven := calculateBreakeven options;
      maxProfit := maxProfit;
      maxLoss := maxLoss;
      probabilityOfProfit := pop;
      riskReward := maxProfit / Math_abs maxLoss;
      timeDecay := calculateTimeDecay currentPrice options;
      volatilityImpact := calculateVolatilityImpact options currentPrice |},
   g').

Definition calculateRiskScore (analysisData : AnalysisData) : number :=
  let maxLossPercent := Math_abs (maxLoss analysisData) / 1000 in
  let profitProbability := probabilityOfProfit analysisData / 100 in
  let riskReward := Math_min (riskReward analysisData) 3 in
  Math_min 10
           ((maxLossPercent * 3)
            + ((1 - profitProbability) * 4)
            + (Math_max 0 (2 - riskReward) * 2)).

(** The prop [strategy]: absent, or carrying its [options]. *)
Definition Strategy := option (list OptionLeg).

Definition count_type (t : OptionType) (options : list OptionLeg) : nat :=
  List.length (filter (fun opt => match type opt, t with
                             | call, call | put, put => true
                             | _, _ => false
                             end) options).

Definition count_action (a : Action) (options : list OptionLeg) : nat :=
  List.length (filter (fun opt => match action opt, a with
                             | buy, buy | sell, sell => true
                             | _, _ => false
                             end) options).

Definition determineStrategyType (strategy : Strategy) : string :=
  match strategy with
  | None => "Unknown"
  | Some options =>
      let callOptions := count_type call options in
      let putOptions := count_type put options in
      let buyOptions := count_action buy options in
      if Nat.eqb (List.length options) 1 then
        if Nat.eqb buyOptions 1
        then (if Nat.eqb callOptions 1 then "Long Call" else "Long Put")
        else (if Nat.eqb callOptions 1 then "Short Call" else "Short Put")
      else if Nat.eqb (List.length options) 2 then
        if Nat.eqb callOptions 2 then "Call Spread"
        else if Nat.eqb putOptions 2 then "Put Spread"
        else "Straddle/Strangle"
      else "Complex Strategy"
  end%string.

(** The guard shared by the effect and by the render:
    [strategy && strategy.options && strategy.options.length > 0]. *)
Definition hasLegs (strategy : Strategy) : bool :=
  match strategy with
  | Some (_ :: _) => true
  | _ => false
  end.

(** The tabs of the component, by their [id]: ['overview'], ['greeks'],
    ['timeDecay'], ['volatility'] and ['risk']. *)
Inductive Tab :=
| tab_overview
| tab_greeks
| tab_timeDecay
| tab_volatility
| tab_risk.

(** [useState('overview')] *)
Definition initialTab : Tab := tab_overview.

(** The component's analysis state, with the random source it draws from.
    The selected tab, which only the render reads, is passed to it. *)
Definition State := (AnalysisData * rng)%type.

(** The [useEffect] on [strategy, currentPrice]: only a strategy with legs
    is analysed; otherwise the state is left as it was. *)
Definition effect (strategy : Strategy) (currentPrice : number)
           (st : State) : State :=
  match strategy with
  | Some ((_ :: _) as options) => calculateAnalysis options currentPrice (snd st)
  | _ => st
  end.

(** First render of a fresh component followed by its effect. *)
Definition mount (strategy : Strategy) (currentPrice : number) (g : rng)
  : State :=
  effect strategy currentPrice (initialAnalysisData, g).

(** What the component shows: the "No strategy selected for analysis"
    container, or the content of the selected tab,
    [tabs.find(tab => tab.id === selectedTab)?.render()].  Only
    [renderRiskAnalysis] calls [calculateRiskScore] and
    [determineStrategyType]; the other four show fields of the state. *)
Inductive View :=
| EmptyContainer
| Overview (data : AnalysisData)
| GreeksContent (data : AnalysisData)
| TimeDecayContent (data : AnalysisData)
| VolatilityImpactContent (data : AnalysisData)
| RiskAnalysis (data : AnalysisData) (riskScore : number)
               (strategyType : string).

Definition renderRiskAnalysis (strategy : Strategy) (st : State) : View :=
  RiskAnalysis (fst st) (calculateRiskScore (fst st))
               (determineStrategyType strategy).

Definition render (strategy : Strategy) (selectedTab : Tab) (st : State)
  : View :=
  if hasLegs strategy
  then match selectedTab with
       | tab_overview => Overview (fst st)
       | tab_greeks => GreeksContent (fst st)
       | tab_timeDecay => TimeDecayContent (fst st)
       | tab_volatility => VolatilityImpactContent (fst st)
       | tab_risk => renderRiskAnalysis strategy st
       end
  else EmptyContainer.

(** The label the screen shows, if it shows one. *)
Definition shownStrategyType (v : View) : option string :=
  match v with
  | RiskAnalysis _ _ label => Some label
  | _ => None
  end.

(** The analysis values the screen shows, if it shows any. *)
Definition shownData (v : View) : option AnalysisData :=
  match v with
  | EmptyContainer => None
  | Overview data | GreeksContent data | TimeDecayContent data
  | VolatilityImpactContent data | RiskAnalysis data _ _ => Some data
  end.

End Analytics.

(** ** The leg form ([StrategyForm.js]) *)

Module Form.

(** A form field holds the Number it was initialised with until the user
    types, after which it holds the typed String. *)
Inductive Field := Num (x : number) | Str (s : string).

(** The engine's String conversions, not modelled further. *)
Class Coercions := {
  StringToNumber : string -> number;
  parseFloat : Field -> number;
  parseInt : Field -> number
}.

(** A row of the option chain, as handed to the form in [route.params];
    a quote may be missing. *)
Record ChainRow := {
  row_strike : number;
  callBid : option number;
  iv : option number
}.

Record FormData := {
  fd_strike : Field;
  fd_type : OptionType;
  fd_action : Action;
  fd_quantity : Field;
  fd_premium : Field;
  fd_volatility : Field
}.

(** [x || d] when [x] may be [undefined]. *)
Definition quote_or (x : option number) (d : number) : number :=
  match x with Some v => or_default v d | None => d end.

(** The argument of [useState]. *)
Definition initialFormData (option : ChainRow) : FormData :=
  {| fd_strike := Num (row_strike option);
     fd_type := call;
     fd_action := buy;
     fd_quantity := Num 1;
     fd_premium := Num (quote_or (callBid option) 0);
     fd_volatility := Num (quote_or (iv option) 0.2) |}.

Record Errors := {
  err_strike : option string;
  err_quantity : option string;
  err_premium : option string;
  err_volatility : option string
}.

Section Validation.
Context {C : Coercions}.

(** [!field] *)
Definition falsy (f : Field) : bool :=
  match f with
  | Num x => negb (truthy x)
  | Str s => String.eqb s EmptyString
  end.

Definition ToNumber (f : Field) : number :=
  match f with
  | Num x => x
  | Str s => StringToNumber s
  end.

Definition newErrors (formData : FormData) : Errors :=
  {| err_strike :=
       if falsy (fd_strike formData) || (ToNumber (fd_strike formData) <=? 0)
       then Some "Strike price must be greater than 0"%string else None;
     err_quantity :=
       if falsy (fd_quantity formData) || (ToNumber (fd_quantity formData) <=? 0)
       then Some "Quantity must be greater than 0"%string else None;
     err_premium :=
       if falsy (fd_premium formData) || (ToNumber (fd_premium formData) <? 0)
       then Some "Premium must be 0 or greater"%string else None;
     err_volatility :=
       if falsy (fd_volatility formData)
          || (ToNumber (fd_volatility formData) <? 0)
          || (5 <? ToNumber (fd_volatility formData))
       then Some "Volatility must be between 0 and 5"%string else None |}.

Definition no_errors (e : Errors) : bool :=
  match err_strike e, err_quantity e, err_premium e, err_volatility e with
  | None, None, None, None => true
  | _, _, _, _ => false
  end.

(** [Object.keys(newErrors).length === 0] *)
Definition validateForm (formData : FormData) : bool :=
  no_errors (newErrors formData).

(** [handleSubmit]: the leg passed to [onConfirm], or nothing after the
    validation alert.  (The [id] and [expiration] of the leg play no part
    in the analytics.) *)
Definition handleSubmit (formData : FormData) : option OptionLeg :=
  if negb (validateForm formData) then None
  else Some {| strike := parseFloat (fd_strike formData);
               type := fd_type formData;
               action := fd_action formData;
               quantity := parseInt (fd_quantity formData);
               premium := parseFloat (fd_premium formData);
               volatility := Some (parseFloat (fd_volatility formData)) |}.

End Validation.

End Form.

(** ** A reference host

    A plain implementation of the host functions, used to run the analytics
    on concrete strategies. *)

Module RefHost.

Definition float_of_Z (z : Z) : float :=
  if (z <? 0)%Z then - of_uint63 (Uint63.of_Z (- z))
  else of_uint63 (Uint63.of_Z z).

Fixpoint exp_series (n : nat) (y term sum k : float) : float :=
  match n with
  | O => sum
  | S n' => let term' := term * y / k in
            exp_series n' y term' (sum + term') (k + 1)
  end.

Fixpoint square_times (n : nat) (x : float) : float :=
  match n with
  | O => x
  | S n' => square_times n' (x * x)
  end.

(** exp x = (exp (x / 2^10)) ^ (2^10), the inner one by its series. *)
Definition exp (x : float) : float :=
  if is_nan x then nan
  else if x <? -746 then 0
  else if 710 <? x then infinity
  else square_times 10 (exp_series 25 (x / 1024) 1 1 1).

Fixpoint atanh_series (n : nat) (z2 pow sum k : float) : float :=
  match n with
  | O => sum
  | S n' => let pow' := pow * z2 in
            atanh_series n' z2 pow' (sum + pow' / k) (k + 2)
  end.

Definition ln2 : float := 0.6931471805599453.

(** log (m * 2^e) = e * ln 2 + 2 * atanh ((m - 1) / (m + 1)). *)
Definition log (x : float) : float :=
  if is_nan x || (x <? 0) then nan
  else if x =? 0 then neg_infinity
  else if x =? infinity then infinity
  else if x =? 1 then 0
  else let (m, e) := Z.frexp x in
       let z := (m - 1) / (m + 1) in
       float_of_Z e * ln2 + 2 * atanh_series 40 (z * z) z z 3.

(** A linear congruential generator; the draw is in [0, 1). *)
Definition random (s : Z) : float * Z :=
  let s' := ((1103515245 * s + 12345) mod 2147483648)%Z in
  (float_of_Z s' / 2147483648, s').

#[export] Instance host : Host :=
  {| Math_exp := exp; Math_log := log; rng := Z; Math_random := random |}.

End RefHost.

(** ** Sample strategies *)

Module Samples.

Definition leg (K : number) (t : OptionType) (a : Action)
           (q p : number) : OptionLeg :=
  {| strike := K; type := t; action := a; quantity := q; premium := p;
     volatility := Some 0.2 |}.

(** One call bought at 150 for 5. *)
Definition longCall : list OptionLeg := [leg 150 call buy 1 5].

(** A bull call spread: 150 bought for 5, 160 sold for 2. *)
Definition bullCallSpread : list OptionLeg :=
  [leg 150 call buy 1 5; leg 160 call sell 1 2].

(** The same call bought and sold: the payoff is 0 at every price. *)
Definition boxed : list OptionLeg :=
  [leg 100 call buy 1 5; leg 100 call sell 1 5].

(** A spread entered at no cost: it can only gain. *)
Definition costless : list OptionLeg :=
  [leg 100 call buy 1 1; leg 101 call sell 1 1].

(** [boxed] with 1e308 contracts on each side: each leg's payoff times its
    quantity overflows. *)
Definition oversized : list OptionLeg :=
  [leg 1 call buy 1e308 1; leg 1 call sell 1e308 1].

Definition seed : Z := 42%Z.

End Samples.

(** ** Vocabulary of the statements *)

(** Strictly ascending, every element below all the later ones. *)
Definition ascending : list number -> Prop :=
  StronglySorted (fun a b => (a <? b) = true).

Fixpoint ascendingb (l : list number) : bool :=
  match l with
  | [] => true
  | x :: t => forallb (fun y => x <? y) t && ascendingb t
  end.

(** A sum accumulated from 0, left to right, as a [forEach] with [+=] does. *)
Definition sum_from_0 (l : list number) : number := fold_left add l 0.

(** The first [n] variates of the random source and the state they leave. *)
Fixpoint draws {H : Host} (n : nat) (g : rng) : list number * rng :=
  match n with
  | O => ([], g)
  | S n' => let '(u, g') := Math_random g in
            let '(us, g'') := draws n' g' in
            (u :: us, g'')
  end.

(** The trial that drew [u] is counted. *)
Definition profitable {H : Host} (options : list OptionLeg)
           (currentPrice u : number) : bool :=
  0 <? totalPayoff options (randomPrice currentPrice u).

(** [c++], [k] times. *)
Definition increments (k : nat) (c : number) : number :=
  Nat.iter k (fun x => x + 1) c.

(** ** The pickers of the leg form ([StrategyForm.js]) *)

Module Pickers.
Import Form.

(** The ask and bid quotes of the chain row ([option] in the source) that
    [updatePremium] reads besides [callBid]. *)
Record RowQuotes := {
  callAsk : option number;
  putBid : option number;
  putAsk : option number
}.

(** [updatePremium]'s choice of quote, from the [formData] it closes over. *)
Definition newPremium (row : ChainRow) (quotes : RowQuotes)
           (formData : FormData) : option number :=
  match fd_type formData with
  | call =>
      match fd_action formData with
      | buy => callAsk quotes
      | sell => callBid row
      end
  | put =>
      match fd_action formData with
      | buy => putAsk quotes
      | sell => putBid quotes
      end
  end.

(** The updaters [prev => ({...prev, [field]: value})]. *)
Definition with_type (value : OptionType) (prev : FormData) : FormData :=
  {| fd_strike := fd_strike prev; fd_type := value;
     fd_action := fd_action prev; fd_quantity := fd_quantity prev;
     fd_premium := fd_premium prev; fd_volatility := fd_volatility prev |}.

Definition with_action (value : Action) (prev : FormData) : FormData :=
  {| fd_strike := fd_strike prev; fd_type := fd_type prev;
     fd_action := value; fd_quantity := fd_quantity prev;
     fd_premium := fd_premium prev; fd_volatility := fd_volatility prev |}.

Definition with_premium (value : Field) (prev : FormData) : FormData :=
  {| fd_strike := fd_strike prev; fd_type := fd_type prev;
     fd_action := fd_action prev; fd_quantity := fd_quantity prev;
     fd_premium := value; fd_volatility := fd_volatility prev |}.

(** [updatePremium()]: the updater it queues.  [newPremium] is computed when
    the handler runs, from the [formData] of the render the handler belongs
    to; only the assignment waits for the state. *)
Definition updatePremium (row : ChainRow) (quotes : RowQuotes)
           (formData : FormData) : FormData -> FormData :=
  with_premium (Num (quote_or (newPremium row quotes formData) 0)).

(** The type picker's [onValueChange]:
    [handleInputChange('type', value); updatePremium();].  Both updaters are
    queued by the same handler and applied in order to the state, which is
    the [formData] of that render. *)
Definition onTypeChange (row : ChainRow) (quotes : RowQuotes)
           (formData : FormData) (value : OptionType) : FormData :=
  updatePremium row quotes formData (with_type value formData).

(** The action picker's [onValueChange], likewise. *)
Definition onActionChange (row : ChainRow) (quotes : RowQuotes)
           (formData : FormData) (value : Action) : FormData :=
  updatePremium row quotes formData (with_action value formData).

(** The text inputs: [onChangeText={(value) => handleInputChange(field, value)}]
    puts the typed String in the field. *)
Inductive TextField := strikeField | quantityField | premiumField | volatilityField.

Definition handleInputChange (field : TextField) (value : string)
           (prev : FormData) : FormData :=
  match field with
  | strikeField =>
      {| fd_strike := Str value; fd_type := fd_type prev;
         fd_action := fd_action prev; fd_quantity := fd_quantity prev;
         fd_premium := fd_premium prev; fd_volatility := fd_volatility prev |}
  | quantityField =>
      {| fd_strike := fd_strike prev; fd_type := fd_type prev;
         fd_action := fd_action prev; fd_quantity := Str value;
         fd_premium := fd_premium prev; fd_volatility := fd_volatility prev |}
  | premiumField => with_premium (Str value) prev
  | volatilityField =>
      {| fd_strike := fd_strike prev; fd_type := fd_type prev;
         fd_action := fd_action prev; fd_quantity := fd_quantity prev;
         fd_premium := fd_premium prev; fd_volatility := Str value |}
  end.

(** The "Strategy Summary" of every render evaluates
    [formData.premium.toFixed(2)].  A Number has [toFixed]; a String has
    not, and calling it throws a TypeError, so the render fails. *)
Definition summaryRenders (formData : FormData) : bool :=
  match fd_premium formData with
  | Num _ => true
  | Str _ => false
  end.

(** What the user does to the form. *)
Inductive Event :=
| TypeText (field : TextField) (value : string)
| PickType (value : OptionType)
| PickAction (value : Action).

Definition apply_event (row : ChainRow) (quotes : RowQuotes)
           (formData : FormData) (ev : Event) : FormData :=
  match ev with
  | TypeText field value => handleInputChange field value formData
  | PickType value => onTypeChange row quotes formData value
  | PickAction value => onActionChange row quotes formData value
  end.

(** The form after the events, as long as each render succeeds. *)
Fixpoint run (row : ChainRow) (quotes : RowQuotes) (formData : FormData)
         (events : list Event) : option FormData :=
  match events with
  | [] => Some formData
  | ev :: rest =>
      let next := apply_event row quotes formData ev in
      if summaryRenders next then run row quotes next rest else None
  end.

Definition types_premium (ev : Event) : bool :=
  match ev with
  | TypeText premiumField _ => true
  | _ => false
  end.

End Pickers.

(** ** Selecting options ([StrategyScreen.js]) *)

Module Screen.

(** The option tapped in the chain, as [handleOptionSelect] reads it: its
    strike, and its [type] if the row carries one. *)
Record ChainOption := {
  opt_strike : number;
  opt_type : option OptionType
}.

Definition OptionType_eqb (a b : OptionType) : bool :=
  match a, b with
  | call, call | put, put => true
  | _, _ => false
  end.

(** [opt.strike === option.strike && opt.type === option.type] *)
Definition same_option (option : ChainOption) (opt : OptionLeg) : bool :=
  (strike opt =? opt_strike option)
  && match opt_type option with
     | Some t => OptionType_eqb (type opt) t
     | None => false
     end.

(** [Array.prototype.findIndex]: the first index that satisfies [f], or -1. *)
Fixpoint findIndex_from {A} (f : A -> bool) (i : Z) (l : list A) : Z :=
  match l with
  | [] => (-1)%Z
  | x :: t => if f x then i else findIndex_from f (i + 1)%Z t
  end.

Definition findIndex {A} (f : A -> bool) (l : list A) : Z :=
  findIndex_from f 0%Z l.

(** [prev.filter((_, index) => keep(index))] *)
Fixpoint filter_index_from {A} (keep : Z -> bool) (i : Z) (l : list A)
  : list A :=
  match l with
  | [] => []
  | x :: t => if keep i then x :: filter_index_from keep (i + 1)%Z t
              else filter_index_from keep (i + 1)%Z t
  end.

(** What a tap does: the selection without the tapped leg, or the form
    opened for the option. *)
Inductive Tap :=
| Deselected (selectedOptions : list OptionLeg)
| FormOpened (option : ChainOption).

Definition handleOptionSelect (selectedOptions : list OptionLeg)
           (option : ChainOption) : Tap :=
  let existingIndex := findIndex (same_option option) selectedOptions in
  if (0 <=? existingIndex)%Z
  then Deselected (filter_index_from
                     (fun index => negb (index =? existingIndex)%Z) 0%Z
                     selectedOptions)
  else FormOpened option.

(** The form's [onConfirm]: [prev => [...prev, strategyOption]]. *)
Definition onConfirm (selectedOptions : list OptionLeg)
           (strategyOption : OptionLeg) : list OptionLeg :=
  selectedOptions ++ [strategyOption].

(** [Number.prototype.toFixed(fractionDigits)], which the host provides. *)
Class NumberFormat := { toFixed : number -> nat -> string }.

(** A point of the payoff diagram: [{ price: ..., payoff: ... }], both
    texts. *)
Record PayoffPoint := {
  pp_price : string;
  pp_payoff : string
}.

(** What the screen holds of its state: [selectedOptions], [payoffData] and
    [currentPrice]. *)
Record ScreenState := {
  st_selectedOptions : list OptionLeg;
  st_payoffData : list PayoffPoint;
  st_currentPrice : number
}.

(** The arguments of [useState]. *)
Definition initialState : ScreenState :=
  {| st_selectedOptions := []; st_payoffData := []; st_currentPrice := 150 |}.

Definition setSelectedOptions (selectedOptions : list OptionLeg)
           (st : ScreenState) : ScreenState :=
  {| st_selectedOptions := selectedOptions;
     st_payoffData := st_payoffData st;
     st_currentPrice := st_currentPrice st |}.

Definition setPayoffData (payoffData : list PayoffPoint)
           (st : ScreenState) : ScreenState :=
  {| st_selectedOptions := st_selectedOptions st;
     st_payoffData := payoffData;
     st_currentPrice := st_currentPrice st |}.

Definition setCurrentPrice (currentPrice : number)
           (st : ScreenState) : ScreenState :=
  {| st_selectedOptions := st_selectedOptions st;
     st_payoffData := st_payoffData st;
     st_currentPrice := currentPrice |}.

(** [for (let i = 0; i <= steps; i++)
       priceRange.push(minPrice + (maxPrice - minPrice) * (i / steps))]
    with [steps = 50]; the counter takes the values 0 to 50. *)
Definition priceRange (currentPrice : number) : list number :=
  let minPrice := currentPrice * 0.7 in
  let maxPrice := currentPrice * 1.3 in
  let steps := 50 in
  map (fun i => minPrice + (maxPrice - minPrice) * (of_nat i / steps))
      (seq 0 51).

Section Payoff.
Context {F : NumberFormat}.

(** [calculatePayoff]: the points it hands to [setPayoffData].  The body of
    its [forEach] is, word for word, that of the sweeps of [Analysis.js],
    [totalPayoff]. *)
Definition calculatePayoff (selectedOptions : list OptionLeg)
           (currentPrice : number) : list PayoffPoint :=
  map (fun price =>
         {| pp_price := toFixed price 2;
            pp_payoff := toFixed (totalPayoff selectedOptions price) 2 |})
      (priceRange currentPrice).

(** [useEffect(() => { if (selectedOptions.length > 0) calculatePayoff(); },
               [selectedOptions, currentPrice])] *)
Definition payoffEffect (st : ScreenState) : ScreenState :=
  match st_selectedOptions st with
  | [] => st
  | _ :: _ =>
      setPayoffData
        (calculatePayoff (st_selectedOptions st) (st_currentPrice st)) st
  end.

(** What happens to the screen: an option of the chain is tapped, the form
    confirms a leg, or [loadOptionChain] receives the chain, with a
    [currentPrice] or without. *)
Inductive ScreenEvent :=
| TapOption (option : ChainOption)
| ConfirmLeg (strategyOption : OptionLeg)
| ChainLoaded (currentPrice : option number).

(** The state after the event and the effect that follows the render.
    [loadOptionChain] does [setCurrentPrice(data.currentPrice || 150)]. *)
Definition screen_step (st : ScreenState) (ev : ScreenEvent) : ScreenState :=
  match ev with
  | TapOption option =>
      match handleOptionSelect (st_selectedOptions st) option with
      | Deselected rest => payoffEffect (setSelectedOptions rest st)
      | FormOpened _ => st
      end
  | ConfirmLeg strategyOption =>
      payoffEffect
        (setSelectedOptions (onConfirm (st_selectedOptions st) strategyOption)
                            st)
  | ChainLoaded currentPrice =>
      payoffEffect (setCurrentPrice (Form.quote_or currentPrice 150) st)
  end.

(** [{payoffData.length > 0 && <PayoffChart data={payoffData} />}] *)
Definition diagramShown (st : ScreenState) : bool :=
  match st_payoffData st with
  | [] => false
  | _ :: _ => true
  end.

End Payoff.

End Screen.

(** ** Reference conversions of typed text

    Conversions to run the form on.  They follow JavaScript on the empty
    text, on texts of up to 15 decimal digits, on texts that begin with a
    letter or a punctuation mark other than a sign or a point (NaN, but for
    the text "Infinity"), and on Numbers that print without an exponent,
    those from 1e-6 up to 1e21 in magnitude, zero, NaN and the infinities.
    Signs, fractions, exponents, white space and radix prefixes in a text
    are not covered. *)

Module RefCoercions.

Definition digit (c : ascii) : option nat :=
  let n := nat_of_ascii c in
  if (48 <=? n)%nat && (n <=? 57)%nat then Some (n - 48)%nat else None.

(** [Number(s)]: 0 for the empty text, the value of a text of digits. *)
Fixpoint all_digits (s : string) (acc : number) : number :=
  match s with
  | EmptyString => acc
  | String c t =>
      match digit c with
      | Some d => all_digits t (acc * 10 + of_nat d)
      | None => nan
      end
  end.

(** [parseFloat(s)], [parseInt(s)]: the value of the longest prefix of
    digits, NaN when there is none. *)
Fixpoint digit_prefix (s : string) (acc : option number) : option number :=
  match s with
  | EmptyString => acc
  | String c t =>
      match digit c with
      | Some d =>
          digit_prefix t (Some (match acc with
                                | Some a => a * 10 + of_nat d
                                | None => of_nat d
                                end))
      | None => acc
      end
  end.

Definition prefix_value (s : string) : number :=
  match digit_prefix s None with Some x => x | None => nan end.

(** [parseFloat] of a Number reads its text back: the Number itself, but
    for -0, whose text is "0". *)
Definition reread (x : number) : number := if is_neg_zero x then 0 else x.

(** [parseInt] of a Number reads the digits before the point of its text:
    the Number without its fraction; NaN for NaN and the infinities. *)
Definition truncated (x : number) : number :=
  match Prim2SF x with
  | S754_finite s m e =>
      if (0 <=? e)%Z then x
      else let r := RefHost.float_of_Z (Z.shiftr (Zpos m) (- e)) in
           if s then - r else r
  | S754_zero _ => 0
  | S754_infinity _ | S754_nan => nan
  end.

Definition parseFloat (f : Form.Field) : number :=
  match f with
  | Form.Num x => reread x
  | Form.Str s => prefix_value s
  end.

Definition parseInt (f : Form.Field) : number :=
  match f with
  | Form.Num x => truncated x
  | Form.Str s => prefix_value s
  end.

#[export] Instance coercions : Form.Coercions :=
  {| Form.StringToNumber := fun s => all_digits s 0;
     Form.parseFloat := parseFloat;
     Form.parseInt := parseInt |}.

End RefCoercions.

(** ** Reference formatting

    [toFixed] for Numbers below 1e21 in magnitude, NaN and the infinities:
    the digits of the integer [n] for which [n / 10^f] is closest to the
    Number, the larger of two, with the point before the last [f] of them.
    Larger Numbers, which print with an exponent, are not covered. *)

Module RefFormat.

Definition scaled (m : positive) (e : Z) (f : nat) : Z :=
  let n := (Zpos m * 10 ^ Z.of_nat f)%Z in
  if (0 <=? e)%Z then (n * 2 ^ e)%Z
  else ((2 * n + 2 ^ (- e)) / 2 ^ (1 - e))%Z.

Fixpoint zeros (k : nat) : string :=
  match k with
  | O => EmptyString
  | S k' => String "0" (zeros k')
  end.

Definition digits (n : Z) : string :=
  NilZero.string_of_uint (N.to_uint (Z.to_N n)).

Definition fixed (n : Z) (f : nat) : string :=
  let s := digits n in
  match f with
  | O => s
  | S _ =>
      let s' := (zeros (S f - String.length s) ++ s)%string in
      let k := (String.length s' - f)%nat in
      (substring 0 k s' ++ "." ++ substring k f s')%string
  end.

Definition toFixed (x : number) (f : nat) : string :=
  match Prim2SF x with
  | S754_nan => "NaN"
  | S754_infinity s => if s then "-Infinity" else "Infinity"
  | S754_zero _ => fixed 0 f
  | S754_finite s m e =>
      ((if s then "-" else EmptyString) ++ fixed (scaled m e f) f)%string
  end.

#[export] Instance format : Screen.NumberFormat :=
  {| Screen.toFixed := toFixed |}.

End RefFormat.

(** ** Further vocabulary *)

(** The order of two finite magnitudes: by exponent, then by mantissa. *)
Definition cmp_em (e1 : Z) (m1 : positive) (e2 : Z) (m2 : positive) : comparison :=
  match (e1 ?= e2)%Z with
  | Lt => Lt
  | Gt => Gt
  | Eq => (m1 ?= m2)%positive
  end.

(** A comparison that came out below or equal. *)
Definition not_gt (c : option comparison) : bool :=
  match c with Some (Lt | Eq) => true | _ => false end.

(** The sign carried by a float that is not NaN. *)
Definition has_sign (s : bool) (x : spec_float) : Prop :=
  match x with
  | S754_zero s' | S754_infinity s' | S754_finite s' _ _ => s' = s
  | S754_nan => False
  end.

(** From +0 up to +Infinity. *)
Definition signed_nonneg (x : number) : Prop := has_sign false (Prim2SF x).

(** The same, decided. *)
Definition signed_nonnegb (x : number) : bool :=
  match Prim2SF x with
  | S754_nan => false
  | S754_zero s | S754_infinity s | S754_finite s _ _ => negb s
  end.

(** The leg with another [volatility] field. *)
Definition with_volatility (v : option number) (opt : OptionLeg) : OptionLeg :=
  {| strike := strike opt; type := type opt; action := action opt;
     quantity := quantity opt; premium := premium opt; volatility := v |}.

(** The leg's volatility, when it has one, is a Number other than 0 and NaN. *)
Definition volatility_usable (opt : OptionLeg) : Prop :=
  match volatility opt with
  | Some v => truthy v = true
  | None => True
  end.

(** The other side of a leg. *)
Definition flip (a : Action) : Action :=
  match a with buy => sell | sell => buy end.

Definition mirror (opt : OptionLeg) : OptionLeg :=
  {| strike := strike opt; type := type opt; action := flip (action opt);
     quantity := quantity opt; premium := premium opt;
     volatility := volatility opt |}.

(** Opposite Numbers: one is the other negated, where a zero counts as the
    opposite of a zero of either sign (and NaN as that of NaN). *)
Definition opposite (x y : number) : Prop :=
  y = - x \/ (is_zero x = true /\ is_zero y = true).

Definition SFzero (u : spec_float) : Prop :=
  match u with S754_zero _ => True | _ => False end.

(** Equal up to the sign of a zero. *)
Definition SFeqv (u v : spec_float) : Prop := u = v \/ (SFzero u /\ SFzero v).

Definition SFopposite (u v : spec_float) : Prop := SFeqv v (SFopp u).

(** * Properties *)

(** ** Binary64 facts

    The primitive operations are specified through [Prim2SF]; the lemmas
    below are the few special-value and ordering facts the analytics need. *)

Module F64.

Lemma SF_nan : Prim2SF nan = S754_nan.
Proof. reflexivity. Qed.
Lemma SF_zero : Prim2SF 0 = S754_zero false.
Proof. reflexivity. Qed.
Lemma SF_inf : Prim2SF infinity = S754_infinity false.
Proof. reflexivity. Qed.

Lemma of_SF_zero x s : Prim2SF x = S754_zero s -> x = if s then -0 else 0.
Proof. intros E. apply Prim2SF_inj. rewrite E. destruct s; reflexivity. Qed.

Lemma of_SF_inf x s :
  Prim2SF x = S754_infinity s -> x = if s then neg_infinity else infinity.
Proof. intros E. apply Prim2SF_inj. rewrite E. destruct s; reflexivity. Qed.

Lemma of_SF_nan x : Prim2SF x = S754_nan -> x = nan.
Proof. intros E. apply Prim2SF_inj. rewrite E. reflexivity. Qed.

Lemma zeroish_SF x :
  zeroish x <-> (exists s, Prim2SF x = S754_zero s) \/ Prim2SF x = S754_nan.
Proof.
  split.
  - intros [-> | [-> | ->]];
      [left; exists false | left; exists true | right]; reflexivity.
  - intros [[s E] | E].
    + apply of_SF_zero in E. destruct s; subst; unfold zeroish; auto.
    + apply of_SF_nan in E. subst. unfold zeroish; auto.
Qed.

Lemma infish_SF x :
  infish x <-> (exists s, Prim2SF x = S754_infinity s) \/ Prim2SF x = S754_nan.
Proof.
  split.
  - intros [-> | [-> | ->]];
      [left; exists false | left; exists true | right]; reflexivity.
  - intros [[s E] | E].
    + apply of_SF_inf in E. destruct s; subst; unfold infish; auto.
    + apply of_SF_nan in E. subst. unfold infish; auto.
Qed.

Lemma is_nan_SF x : is_nan x = true <-> Prim2SF x = S754_nan.
Proof.
  unfold is_nan. rewrite FloatAxioms.eqb_spec. unfold SFeqb.
  destruct (Prim2SF x) as [s | s | | s m e]; cbn.
  - split; discriminate.
  - destruct s; split; discriminate.
  - split; reflexivity.
  - destruct s; rewrite Z.compare_refl, Pos.compare_cont_refl;
      split; discriminate.
Qed.

Lemma is_nan_true x : is_nan x = true -> x = nan.
Proof. intros E. apply of_SF_nan, is_nan_SF, E. Qed.

(** NaN is absorbing. *)
Lemma add_nan_l x : nan + x = nan.
Proof. apply Prim2SF_inj. rewrite add_spec, SF_nan. reflexivity. Qed.

Lemma add_nan_r x : x + nan = nan.
Proof.
  apply Prim2SF_inj. rewrite add_spec, SF_nan.
  destruct (Prim2SF x); reflexivity.
Qed.

Lemma sub_nan_l x : nan - x = nan.
Proof. apply Prim2SF_inj. rewrite sub_spec, SF_nan. reflexivity. Qed.

Lemma mul_nan_l x : nan * x = nan.
Proof. apply Prim2SF_inj. rewrite mul_spec, SF_nan. reflexivity. Qed.

Lemma mul_nan_r x : x * nan = nan.
Proof.
  apply Prim2SF_inj. rewrite mul_spec, SF_nan.
  destruct (Prim2SF x); reflexivity.
Qed.

Lemma div_nan_l x : nan / x = nan.
Proof. apply Prim2SF_inj. rewrite div_spec, SF_nan. reflexivity. Qed.

Lemma le_nan_r x : (x <=? nan) = false.
Proof. rewrite leb_spec, SF_nan. destruct (Prim2SF x); reflexivity. Qed.

Lemma le_nan_l x : (nan <=? x) = false.
Proof. rewrite leb_spec, SF_nan. reflexivity. Qed.

(** Zeros and NaN under multiplication and division. *)
Lemma mul_zeroish_r x y : zeroish y -> zeroish (x * y).
Proof.
  intros Hy. apply zeroish_SF in Hy. apply zeroish_SF. rewrite mul_spec.
  destruct Hy as [[s E] | E]; rewrite E; destruct (Prim2SF x); cbn; eauto.
Qed.

Lemma mul_zeroish_l x y : zeroish x -> zeroish (x * y).
Proof.
  intros Hx. apply zeroish_SF in Hx. apply zeroish_SF. rewrite mul_spec.
  destruct Hx as [[s E] | E]; rewrite E; destruct (Prim2SF y); cbn; eauto.
Qed.

Lemma opp_zeroish x : zeroish x -> zeroish (- x).
Proof.
  intros Hx. apply zeroish_SF in Hx. apply zeroish_SF. rewrite opp_spec.
  destruct Hx as [[s E] | E]; rewrite E; cbn; eauto.
Qed.

Lemma div_zeroish x y : zeroish x -> zeroish y -> x / y = nan.
Proof.
  intros Hx Hy. apply zeroish_SF in Hx, Hy.
  apply Prim2SF_inj. rewrite div_spec, SF_nan.
  destruct Hx as [[s E] | E], Hy as [[s' E'] | E']; rewrite E, E';
    reflexivity.
Qed.

Lemma div_by_zeroish x y : zeroish y -> infish (x / y).
Proof.
  intros Hy. apply zeroish_SF in Hy. apply infish_SF. rewrite div_spec.
  destruct Hy as [[s E] | E]; rewrite E; destruct (Prim2SF x); cbn; eauto.
Qed.

Lemma div_pos_zero x : (0 <? x) = true -> x / 0 = infinity.
Proof.
  rewrite ltb_spec, SF_zero. intros Hx.
  apply Prim2SF_inj. rewrite div_spec, SF_zero, SF_inf.
  destruct (Prim2SF x) as [s | s | | s m e]; cbn in *; try discriminate;
    destruct s; (discriminate || reflexivity).
Qed.

Lemma abs_eq_zero x : (x =? 0) = true -> abs x = 0.
Proof.
  rewrite FloatAxioms.eqb_spec, SF_zero. intros Hx.
  apply Prim2SF_inj. rewrite abs_spec, SF_zero.
  destruct (Prim2SF x) as [s | s | | s m e]; cbn in *; try discriminate;
    try reflexivity; destruct s; discriminate.
Qed.

(** Ordering against zero is decided by the sign. *)
Lemma nonneg_lt a b :
  (0 <=? a) = true -> (a <? b) = true -> (0 <=? b) = true.
Proof.
  rewrite !leb_spec, ltb_spec, SF_zero.
  destruct (Prim2SF a) as [s | s | | s m e],
           (Prim2SF b) as [s' | s' | | s' m' e'];
    cbn; try discriminate; try reflexivity;
    try (destruct s; try discriminate);
    try (destruct s'; try discriminate; try reflexivity).
Qed.

Lemma lt_nonpos a b :
  (a <=? 0) = true -> (b <? a) = true -> (b <=? 0) = true.
Proof.
  rewrite !leb_spec, ltb_spec, SF_zero.
  destruct (Prim2SF a) as [s | s | | s m e],
           (Prim2SF b) as [s' | s' | | s' m' e'];
    cbn; try discriminate; try reflexivity;
    try (destruct s; try discriminate);
    try (destruct s'; try discriminate; try reflexivity).
Qed.

Lemma leibniz_true x y : Leibniz.eqb x y = true -> x = y.
Proof. apply Leibniz.eqb_spec. Qed.

Lemma sub_nan_r x : x - nan = nan.
Proof.
apply Prim2SF_inj. rewrite sub_spec, SF_nan.
destruct (Prim2SF x); reflexivity.
Qed.

Lemma eq_zero_zeroish x : (x =? 0) = true -> zeroish x.
Proof.
rewrite FloatAxioms.eqb_spec, SF_zero. intros Hx. apply zeroish_SF.
destruct (Prim2SF x) as [s | s | | s m e]; cbn in *; try discriminate;
  eauto; destruct s; discriminate.
Qed.

Lemma nonneg_cases x :
  (0 <=? x) = true -> (0 <? x) = true \/ (x =? 0) = true.
Proof.
rewrite leb_spec, ltb_spec, FloatAxioms.eqb_spec, SF_zero.
destruct (Prim2SF x) as [s | s | | s m e]; cbn; try discriminate; auto;
  destruct s; cbn; auto.
Qed.

(** A Number is truthy and not [<= 0] exactly when it is positive; the same
    with [< 0], since a zero is falsy. *)
Lemma truthy_not_le_0 x : truthy x && negb (x <=? 0) = (0 <? x).
Proof.
unfold truthy, is_nan, is_zero.
rewrite !FloatAxioms.eqb_spec, leb_spec, ltb_spec, SF_zero.
unfold SFeqb, SFleb, SFltb.
destruct (Prim2SF x) as [s | s | | s m e]; cbn; try reflexivity;
  destruct s; cbn; try reflexivity;
  rewrite Z.compare_refl, Pos.compare_cont_refl; reflexivity.
Qed.

Lemma truthy_not_lt_0 x : truthy x && negb (x <? 0) = (0 <? x).
Proof.
unfold truthy, is_nan, is_zero.
rewrite !FloatAxioms.eqb_spec, !ltb_spec, SF_zero.
unfold SFeqb, SFltb.
destruct (Prim2SF x) as [s | s | | s m e]; cbn; try reflexivity;
  destruct s; cbn; try reflexivity;
  rewrite Z.compare_refl, Pos.compare_cont_refl; reflexivity.
Qed.

(** Away from NaN, "not above 5" is "at most 5". *)
Lemma not_gt_5 x : (0 <? x) = true -> negb (5 <? x) = (x <=? 5).
Proof.
rewrite leb_spec, !ltb_spec, SF_zero.
replace (Prim2SF 5) with (S754_finite false 5629499534213120 (-50))
  by reflexivity.
generalize 5629499534213120%positive (-50)%Z. intros m5 e5.
unfold SFleb, SFltb.
destruct (Prim2SF x) as [s | s | | s m e]; cbn; try discriminate;
  destruct s; cbn; try discriminate; try reflexivity.
intros _.
rewrite (Z.compare_antisym e e5).
destruct (e ?= e5)%Z; cbn; try reflexivity.
pose proof (Pos.compare_cont_antisym m m5 Eq) as Ha. cbn [CompOpp] in Ha.
rewrite <- Ha.
destruct (Pos.compare_cont Eq m m5); reflexivity.
Qed.

End F64.

(** ** Loops *)

Lemma for_values_fuel n guard next x k :
  for_exits n guard next x = true ->
  for_values (n + k) guard next x = for_values n guard next x.
Proof.
  revert x. induction n as [| n IH]; intros x; cbn.
  - intros Hg. apply negb_true_iff in Hg.
    destruct k; cbn; [reflexivity | now rewrite Hg].
  - destruct (guard x); [| reflexivity].
    intros Hx. now rewrite IH.
Qed.

(** Each loop of the program leaves through its guard within the fuel. *)
Lemma loops_exit :
  for_exits 1000 (fun price => price <=? 250) (fun price => price + 1) 50 = true
  /\ for_exits 1000 (fun price => price <=? 250) (fun price => price + 0.5) 50 = true
  /\ for_exits 2000 (fun i => i <? numSimulations) (fun i => i + 1) 0 = true
  /\ for_exits 100 (fun days => 0 <=? days) (fun days => days - 1) 30 = true
  /\ for_exits 100 (fun vol => vol <=? 0.5) (fun vol => vol + 0.05) 0.1 = true.
Proof. repeat split; vm_compute; reflexivity. Qed.

(** So more fuel changes nothing, here for the two price sweeps. *)
Lemma sweep_fuel_independent step k :
  for_exits 1000 (fun price => price <=? 250) (fun price => price + step) 50
  = true ->
  for_values (1000 + k) (fun price => price <=? 250)
             (fun price => price + step) 50
  = sweep step.
Proof. intros Hexit. unfold sweep. apply for_values_fuel, Hexit. Qed.

(** The sweep with step 1 visits the 201 integer prices 50, 51, ..., 250. *)
Lemma sweep_1_values : sweep 1 = map of_nat (seq 50 201).
Proof. vm_compute. reflexivity. Qed.

(** The sweep with step 0.5 visits the 401 prices 50, 50.5, ..., 250. *)
Lemma sweep_half_values : sweep 0.5 = map (fun k => of_nat k / 2) (seq 100 401).
Proof. vm_compute. reflexivity. Qed.

(** ** [Math.max] and [Math.min] against zero *)

Lemma not_nan_of_nonneg x : (0 <=? x) = true -> is_nan x = false.
Proof.
  intros Hx. destruct (is_nan x) eqn:E; [| reflexivity].
  apply F64.is_nan_true in E. subst. now rewrite F64.le_nan_r in Hx.
Qed.

Lemma not_nan_of_nonpos x : (x <=? 0) = true -> is_nan x = false.
Proof.
  intros Hx. destruct (is_nan x) eqn:E; [| reflexivity].
  apply F64.is_nan_true in E. subst. now rewrite F64.le_nan_l in Hx.
Qed.

Lemma Math_max_nonneg acc p :
  (0 <=? acc) = true -> is_nan p = false -> (0 <=? Math_max acc p) = true.
Proof.
  intros Hacc Hp. unfold Math_max.
  rewrite (not_nan_of_nonneg _ Hacc), Hp. cbn [orb].
  destruct (is_neg_zero acc && is_pos_zero p) eqn:Ez.
  - apply andb_true_iff in Ez as [_ Ez].
    apply F64.leibniz_true in Ez. subst. reflexivity.
  - destruct (acc <? p) eqn:Elt; [| exact Hacc].
    eapply F64.nonneg_lt; eassumption.
Qed.

Lemma Math_min_nonpos acc p :
  (acc <=? 0) = true -> is_nan p = false -> (Math_min acc p <=? 0) = true.
Proof.
  intros Hacc Hp. unfold Math_min.
  rewrite (not_nan_of_nonpos _ Hacc), Hp. cbn [orb].
  destruct (is_pos_zero acc && is_neg_zero p) eqn:Ez.
  - apply andb_true_iff in Ez as [_ Ez].
    apply F64.leibniz_true in Ez. subst. reflexivity.
  - destruct (p <? acc) eqn:Elt; [| exact Hacc].
    eapply F64.lt_nonpos; eassumption.
Qed.

Lemma Math_max_nan_l p : Math_max nan p = nan.
Proof. reflexivity. Qed.

Lemma Math_max_nan_r acc : Math_max acc nan = nan.
Proof. unfold Math_max. now rewrite orb_true_r. Qed.

Lemma Math_min_nan_l p : Math_min nan p = nan.
Proof. reflexivity. Qed.

Lemma Math_min_nan_r acc : Math_min acc nan = nan.
Proof. unfold Math_min. now rewrite orb_true_r. Qed.

(** ** The running maximum and minimum of a sweep *)

Section Running.
Variable payoff : number -> number.

Lemma running_max_nonneg prices : forall acc,
  (0 <=? acc) = true ->
  (forall price, In price prices -> is_nan (payoff price) = false) ->
  (0 <=? fold_left (fun m price => Math_max m (payoff price)) prices acc) = true.
Proof.
  induction prices as [| price prices IH]; intros acc Hacc Hnum; cbn.
  - exact Hacc.
  - apply IH.
    + apply Math_max_nonneg; [exact Hacc | apply Hnum; now left].
    + intros q Hq. apply Hnum. now right.
Qed.

Lemma running_min_nonpos prices : forall acc,
  (acc <=? 0) = true ->
  (forall price, In price prices -> is_nan (payoff price) = false) ->
  (fold_left (fun m price => Math_min m (payoff price)) prices acc <=? 0) = true.
Proof.
  induction prices as [| price prices IH]; intros acc Hacc Hnum; cbn.
  - exact Hacc.
  - apply IH.
    + apply Math_min_nonpos; [exact Hacc | apply Hnum; now left].
    + intros q Hq. apply Hnum. now right.
Qed.

(** Once NaN, always NaN. *)
Lemma running_max_nan prices :
  fold_left (fun m price => Math_max m (payoff price)) prices nan = nan.
Proof. induction prices; cbn; [reflexivity | assumption]. Qed.

Lemma running_min_nan prices :
  fold_left (fun m price => Math_min m (payoff price)) prices nan = nan.
Proof. induction prices; cbn; [reflexivity | assumption]. Qed.

Lemma running_max_hits_nan prices : forall acc price,
  In price prices -> is_nan (payoff price) = true ->
  fold_left (fun m price => Math_max m (payoff price)) prices acc = nan.
Proof.
  induction prices as [| q prices IH]; intros acc price Hin Hnan; cbn.
  - destruct Hin.
  - destruct Hin as [-> | Hin].
    + apply F64.is_nan_true in Hnan. rewrite Hnan, Math_max_nan_r.
      apply running_max_nan.
    + eapply IH; eassumption.
Qed.

Lemma running_min_hits_nan prices : forall acc price,
  In price prices -> is_nan (payoff price) = true ->
  fold_left (fun m price => Math_min m (payoff price)) prices acc = nan.
Proof.
  induction prices as [| q prices IH]; intros acc price Hin Hnan; cbn.
  - destruct Hin.
  - destruct Hin as [-> | Hin].
    + apply F64.is_nan_true in Hnan. rewrite Hnan, Math_min_nan_r.
      apply running_min_nan.
    + eapply IH; eassumption.
Qed.

End Running.

(** C2, as the code has it.  When the total payoff is a number at each of the
    201 sample prices, the minimum found by [calculateMaxLoss] is at most 0
    and the maximum found by [calculateMaxProfit] is at least 0: both start
    from 0 and [Math.min], [Math.max] can only move away from it.  And when
    the payoff is NaN at some sample price, both results are NaN. *)
Theorem maxLoss_le_0_le_maxProfit (options : list OptionLeg) :
  ((forall price, In price (sweep 1) ->
                  is_nan (totalPayoff options price) = false) ->
   (calculateMaxLoss options <=? 0) = true
   /\ (0 <=? calculateMaxProfit options) = true)
  /\ ((exists price, In price (sweep 1)
                     /\ is_nan (totalPayoff options price) = true) ->
      calculateMaxLoss options = nan /\ calculateMaxProfit options = nan).
Proof.
  unfold calculateMaxLoss, calculateMaxProfit. split.
  - intros Hnum. split.
    + apply running_min_nonpos; [reflexivity | exact Hnum].
    + apply running_max_nonneg; [reflexivity | exact Hnum].
  - intros (price & Hin & Hnan). split.
    + eapply running_min_hits_nan; eassumption.
    + eapply running_max_hits_nan; eassumption.
Qed.

Lemma maxLoss_le_0_le_maxProfit_witness :
  (calculateMaxLoss Samples.bullCallSpread <=? 0) = true
  /\ (0 <=? calculateMaxProfit Samples.bullCallSpread) = true.
Proof.
  apply (proj1 (maxLoss_le_0_le_maxProfit Samples.bullCallSpread)).
  intros price Hin.
  assert (Hall : forallb (fun p => negb (is_nan (totalPayoff Samples.bullCallSpread p)))
                         (sweep 1) = true) by (vm_compute; reflexivity).
  rewrite forallb_forall in Hall. apply negb_true_iff, Hall, Hin.
Defined.

(** With 1e308 contracts a side the leg payoffs overflow to +Infinity and
    -Infinity, their sum is NaN, and neither inequality of C2 holds. *)
Lemma maxLoss_maxProfit_overflow :
  (calculateMaxLoss Samples.oversized <=? 0) = false
  /\ (0 <=? calculateMaxProfit Samples.oversized) = false.
Proof. split; vm_compute; reflexivity. Qed.


(** ** Breakeven prices *)

Lemma push_if_is_filter {A} (f : A -> bool) (l : list A) : forall acc,
  fold_left (fun acc x => if f x then acc ++ [x] else acc) l acc
  = acc ++ filter f l.
Proof.
  induction l as [| x l IH]; intros acc; cbn.
  - now rewrite app_nil_r.
  - rewrite IH. destruct (f x); [| reflexivity].
    now rewrite <- app_assoc.
Qed.

Lemma ascendingb_sound l : ascendingb l = true -> ascending l.
Proof.
  induction l as [| x l IH]; cbn; intros Hl.
  - constructor.
  - apply andb_true_iff in Hl as [Hx Hl].
    constructor; [now apply IH |].
    apply Forall_forall. now apply forallb_forall.
Qed.

Lemma ascending_filter (f : number -> bool) l :
  ascending l -> ascending (filter f l).
Proof.
  induction 1 as [| x l Hl IH Hx]; cbn.
  - constructor.
  - destruct (f x); [| exact IH].
    constructor; [exact IH |].
    apply Forall_forall. intros y Hy.
    apply filter_In in Hy as [Hy _].
    revert y Hy. now apply Forall_forall.
Qed.

Lemma fold_left_add_map {A} (g : A -> number) (l : list A) : forall acc,
  fold_left (fun s x => s + g x) l acc = fold_left add (map g l) acc.
Proof. induction l as [| x l IH]; intros acc; simpl; [reflexivity | apply IH]. Qed.

Lemma totalPayoff_sum options price :
  totalPayoff options price
  = sum_from_0 (map (fun opt => optionPayoff opt price * quantity opt) options).
Proof. apply fold_left_add_map. Qed.

(** C3.  [calculateBreakeven] returns exactly the sample prices
    50, 50.5, ..., 250 at which the absolute total payoff is below 0.01, in
    the order of the sweep (strictly ascending, nothing removed); the total
    payoff is the sum over the legs of the per-leg payoff times the quantity,
    and the per-leg payoff is the stated one for each of the four kinds of
    leg. *)
Theorem calculateBreakeven_spec (options : list OptionLeg) :
  calculateBreakeven options
  = filter (fun p => Math_abs (totalPayoff options p) <? 0.01)
           (map (fun k => of_nat k / 2) (seq 100 401))
  /\ ascending (calculateBreakeven options)
  /\ (forall price,
        totalPayoff options price
        = sum_from_0 (map (fun opt => optionPayoff opt price * quantity opt)
                          options))
  /\ (forall K q p v price,
        optionPayoff {| strike := K; type := call; action := buy;
                        quantity := q; premium := p; volatility := v |} price
        = Math_max 0 (price - K) - p
        /\ optionPayoff {| strike := K; type := call; action := sell;
                           quantity := q; premium := p; volatility := v |} price
           = p - Math_max 0 (price - K)
        /\ optionPayoff {| strike := K; type := put; action := buy;
                           quantity := q; premium := p; volatility := v |} price
           = Math_max 0 (K - price) - p
        /\ optionPayoff {| strike := K; type := put; action := sell;
                           quantity := q; premium := p; volatility := v |} price
           = p - Math_max 0 (K - price)).
Proof.
  assert (Hfilter : calculateBreakeven options
                    = filter (fun p => Math_abs (totalPayoff options p) <? 0.01)
                             (sweep 0.5)).
  { unfold calculateBreakeven. rewrite push_if_is_filter. reflexivity. }
 
  split; [| split; [| split]].
  - rewrite Hfilter. rewrite sweep_half_values. reflexivity.
  - rewrite Hfilter. apply ascending_filter, ascendingb_sound.
    vm_compute. reflexivity.
  - intros price. apply totalPayoff_sum.
  - intros K q p v price. repeat split.
Qed.

(** ** Probability of profit *)

Section MonteCarlo.
Context {H : Host}.
Variable options : list OptionLeg.
Variable currentPrice : number.

Lemma draws_length n : forall g, List.length (fst (draws n g)) = n.
Proof.
  induction n as [| n IH]; intros g; simpl; [reflexivity |].
  destruct (Math_random g) as [u g1].
  specialize (IH g1). destruct (draws n g1) as [us g2].
  simpl in *. now rewrite IH.
Qed.

Lemma increments_shift k c : increments k (c + 1) = increments (S k) c.
Proof. unfold increments. now rewrite Nat.iter_succ_r. Qed.

(** The loop body is run once per element, whatever the elements are: it
    draws one variate and counts the trial if its payoff is positive. *)
Lemma trials_fold {A} (l : list A) : forall c g,
  fold_left (fun st _ => trial options currentPrice st) l (c, g)
  = (increments
       (List.length (filter (profitable options currentPrice)
                            (fst (draws (List.length l) g)))) c,
     snd (draws (List.length l) g)).
Proof.
  induction l as [| i l IH]; intros c g; simpl; [reflexivity |].
  destruct (Math_random g) as [u g1] eqn:Eu.
  rewrite IH. destruct (draws (List.length l) g1) as [us g2]. simpl.
  unfold profitable at 2.
  destruct (0 <? totalPayoff options (randomPrice currentPrice u));
    [| reflexivity].
  simpl. now rewrite increments_shift.
Qed.

Lemma trials_length : List.length trials = 1000%nat.
Proof. vm_compute. reflexivity. Qed.

(** Counting to at most 1000 by [+ 1] is exact. *)
Lemma increments_exact k :
  (k <= 1000)%nat -> increments k 0 = of_nat k.
Proof.
  intros Hk.
  assert (Hall : forallb (fun k => Leibniz.eqb (increments k 0) (of_nat k))
                         (seq 0 1001) = true) by (vm_compute; reflexivity).
  rewrite forallb_forall in Hall.
  apply F64.leibniz_true, Hall, in_seq. lia.
Qed.

Lemma percentage_bounds k :
  (k <= 1000)%nat ->
  (0 <=? of_nat k / numSimulations * 100) = true
  /\ (of_nat k / numSimulations * 100 <=? 100) = true.
Proof.
  intros Hk.
  assert (Hall : forallb (fun k => (0 <=? of_nat k / numSimulations * 100)
                                   && (of_nat k / numSimulations * 100 <=? 100))
                         (seq 0 1001) = true) by (vm_compute; reflexivity).
  rewrite forallb_forall in Hall.
  apply andb_true_iff, Hall, in_seq. lia.
Qed.

Lemma profitable_count_le g :
  (List.length (filter (profitable options currentPrice)
                       (fst (draws 1000 g))) <= 1000)%nat.
Proof.
  etransitivity; [apply filter_length_le |].
  now rewrite draws_length.
Qed.

(** The value returned, in terms of the variates drawn. *)
Lemma calculateProbabilityOfProfit_value (g : rng) :
  calculateProbabilityOfProfit options currentPrice g
  = (of_nat (List.length (filter (profitable options currentPrice)
                                 (fst (draws 1000 g))))
     / numSimulations * 100,
     snd (draws 1000 g)).
Proof.
  unfold calculateProbabilityOfProfit, simulate.
  rewrite trials_fold, trials_length.
  rewrite increments_exact by apply profitable_count_le.
  reflexivity.
Qed.

(** C4.  The loop runs exactly 1000 trials, each consuming one variate [u]
    of the random source and pricing the strategy at
    [spot * exp ((u - 0.5) * 0.20 * sqrt (30/365) * 2)]; with
    [profitableTrials] the number of variates whose payoff is strictly
    positive, the result is [profitableTrials / 1000 * 100], which lies
    between 0 and 100; the source is left in the state after 1000 draws. *)
Theorem calculateProbabilityOfProfit_spec (g : rng) :
  List.length trials = 1000%nat
  /\ (forall u, randomPrice currentPrice u
                = currentPrice * Math_exp ((u - 0.5) * 0.2 * Math_sqrt (30 / 365) * 2))
  /\ (forall u, profitable options currentPrice u
                = (0 <? totalPayoff options (randomPrice currentPrice u)))
  /\ (let us := fst (draws 1000 g) in
      let profitableTrials :=
        List.length (filter (profitable options currentPrice) us) in
      List.length us = 1000%nat
      /\ calculateProbabilityOfProfit options currentPrice g
         = (of_nat profitableTrials / 1000 * 100, snd (draws 1000 g)))
  /\ (0 <=? fst (calculateProbabilityOfProfit options currentPrice g)) = true
  /\ (fst (calculateProbabilityOfProfit options currentPrice g) <=? 100) = true.
Proof.
  pose proof (calculateProbabilityOfProfit_value g) as Hrun.
  split; [apply trials_length |].
  split; [reflexivity |].
  split; [reflexivity |].
  split; [split; [apply draws_length | exact Hrun] |].
  rewrite Hrun. cbv [fst].
  apply percentage_bounds, profitable_count_le.
Qed.

End MonteCarlo.

(** ** Greeks *)

Section GreeksFacts.
Context {H : Host}.

(** The five running totals of [calculateGreeks] are five separate sums. *)
Lemma totals_are_sums (per : OptionLeg -> Greeks) (w : OptionLeg -> number)
      (options : list OptionLeg) : forall tot,
  fold_left
    (fun tot opt =>
       {| delta := delta tot + delta (per opt) * w opt;
          gamma := gamma tot + gamma (per opt) * w opt;
          theta := theta tot + theta (per opt) * w opt;
          vega := vega tot + vega (per opt) * w opt;
          rho := rho tot + rho (per opt) * w opt |})
    options tot
  = {| delta := fold_left add (map (fun o => delta (per o) * w o) options) (delta tot);
       gamma := fold_left add (map (fun o => gamma (per o) * w o) options) (gamma tot);
       theta := fold_left add (map (fun o => theta (per o) * w o) options) (theta tot);
       vega := fold_left add (map (fun o => vega (per o) * w o) options) (vega tot);
       rho := fold_left add (map (fun o => rho (per o) * w o) options) (rho tot) |}.
Proof.
  induction options as [| opt options IH]; intros tot; simpl.
  - destruct tot; reflexivity.
  - rewrite IH. reflexivity.
Qed.

(** C1.  The per-leg Greeks are the Black-Scholes closed form, with the
    normal distribution function computed from the Abramowitz-Stegun
    approximation of erf; theta is reported per day (/365), vega and rho per
    point (/100); the aggregate evaluates each leg at T = 30/365, r = 0.05
    and the leg's volatility (0.2 when it has none), weighs it by
    (+1 if buy else -1) * quantity, and sums over the legs. *)
Theorem greeks_closed_form :
  (forall x,
      let t := 1.0 / (1.0 + 0.3275911 * Math_abs x) in
      erf x
      = (if 0 <=? x then 1 else -1)
        * (1.0 - (((((1.061405429 * t + -1.453152027) * t) + 1.421413741) * t
                   + -0.284496736) * t + 0.254829592) * t
                 * Math_exp ((- Math_abs x) * Math_abs x)))
  /\ (forall x, normCDF x = 0.5 * (1 + erf (x / Math_sqrt 2)))
  /\ (forall x, normPDF x = Math_exp (-0.5 * x * x) / Math_sqrt (2 * Math_PI))
  /\ (forall S K T r sigma,
         let d1 := (Math_log (S / K) + (r + 0.5 * sigma * sigma) * T)
                   / (sigma * Math_sqrt T) in
         let d2 := d1 - sigma * Math_sqrt T in
         let c := calculateBlackScholesGreeks S K T r sigma call in
         let p := calculateBlackScholesGreeks S K T r sigma put in
         delta c = normCDF d1
         /\ delta p = normCDF d1 - 1
         /\ gamma c = normPDF d1 / (S * sigma * Math_sqrt T)
         /\ gamma p = normPDF d1 / (S * sigma * Math_sqrt T)
         /\ vega c = S * normPDF d1 * Math_sqrt T / 100
         /\ vega p = S * normPDF d1 * Math_sqrt T / 100
         /\ theta c = ((- (S * normPDF d1 * sigma)) / (2 * Math_sqrt T)
                       - r * K * Math_exp ((- r) * T) * normCDF d2) / 365
         /\ theta p = ((- (S * normPDF d1 * sigma)) / (2 * Math_sqrt T)
                       + r * K * Math_exp ((- r) * T) * normCDF (- d2)) / 365
         /\ rho c = K * T * Math_exp ((- r) * T) * normCDF d2 / 100
         /\ rho p = (- K) * T * Math_exp ((- r) * T) * normCDF (- d2) / 100)
  /\ (forall options spotPrice,
         let per := fun opt =>
           calculateBlackScholesGreeks
             spotPrice (strike opt) (30 / 365) 0.05
             (match volatility opt with Some v => v | None => 0.2 end)
             (type opt) in
         let w := fun opt =>
           (match action opt with buy => 1 | sell => -1 end) * quantity opt in
         calculateGreeks options spotPrice
         = {| delta := sum_from_0 (map (fun o => delta (per o) * w o) options);
              gamma := sum_from_0 (map (fun o => gamma (per o) * w o) options);
              theta := sum_from_0 (map (fun o => theta (per o) * w o) options);
              vega := sum_from_0 (map (fun o => vega (per o) * w o) options);
              rho := sum_from_0 (map (fun o => rho (per o) * w o) options) |}).
Proof.
  split; [reflexivity |].
  split; [reflexivity |].
  split; [reflexivity |].
  split.
  - intros S K T r sigma d1 d2 c p. repeat split.
  - intros options spotPrice per w.
    unfold calculateGreeks, sum_from_0.
    exact (totals_are_sums per w options
             {| delta := 0; gamma := 0; theta := 0; vega := 0; rho := 0 |}).
Qed.

End GreeksFacts.

(** ** Volatility impact *)

Lemma volLoop_values :
  volLoop = [0.1; 0.15000000000000002; 0.2; 0.25; 0.3; 0.35;
             0.39999999999999997; 0.44999999999999996; 0.49999999999999994].
Proof. vm_compute. reflexivity. Qed.

Lemma totalVegaAt_sum {H : Host} options spotPrice vol :
  totalVegaAt options spotPrice vol
  = sum_from_0
      (map (fun opt =>
              vega (calculateBlackScholesGreeks
                      spotPrice (strike opt) (30 / 365) 0.05 vol (type opt))
              * ((match action opt with buy => 1 | sell => -1 end)
                 * quantity opt))
           options).
Proof. unfold totalVegaAt, sum_from_0. apply fold_left_add_map. Qed.

(** C9.  The loop [for (vol = 0.1; vol <= 0.5; vol += 0.05)] makes exactly
    9 iterations; its variable takes the binary64 values listed, each within
    1e-16 of 0.10, 0.15, ..., 0.50 (the last one is 0.49999999999999994, still
    at most 0.5); each iteration emits the pair of [vol * 100] and of the sum
    over the legs of the signed, quantity-weighted per-leg vega at the given
    spot, T = 30/365, r = 0.05 and that volatility. *)
Theorem calculateVolatilityImpact_spec {H : Host}
        (options : list OptionLeg) (spotPrice : number) :
  List.length (calculateVolatilityImpact options spotPrice) = 9%nat
  /\ volLoop = [0.1; 0.15000000000000002; 0.2; 0.25; 0.3; 0.35;
                0.39999999999999997; 0.44999999999999996; 0.49999999999999994]
  /\ Forall2 (fun vol nominal => (Math_abs (vol - nominal) <=? 1e-16) = true)
             volLoop [0.1; 0.15; 0.2; 0.25; 0.3; 0.35; 0.4; 0.45; 0.5]
  /\ calculateVolatilityImpact options spotPrice
     = map (fun vol =>
              {| vi_volatility := vol * 100;
                 vi_vega :=
                   sum_from_0
                     (map (fun opt =>
                             vega (calculateBlackScholesGreeks
                                     spotPrice (strike opt) (30 / 365) 0.05 vol
                                     (type opt))
                             * ((match action opt with buy => 1 | sell => -1 end)
                                * quantity opt))
                          options) |})
           volLoop.
Proof.
  split; [| split; [| split]].
  - unfold calculateVolatilityImpact. rewrite length_map, volLoop_values.
    reflexivity.
  - exact volLoop_values.
  - rewrite volLoop_values. repeat constructor.
  - unfold calculateVolatilityImpact. apply map_ext.
    intros vol. rewrite totalVegaAt_sum. reflexivity.
Qed.

(** ** Degenerate inputs of the Greeks *)

#[export] Instance RefHost_spec : HostSpec RefHost.host.
Proof. split; vm_compute; reflexivity. Qed.

Section Degenerate.
Context {H : Host} {HS : HostSpec H}.

Lemma zeroish_0 : zeroish 0.
Proof. left. reflexivity. Qed.

Lemma normPDF_infish d : infish d -> zeroish (normPDF d).
Proof.
  unfold normPDF. intros [-> | [-> | ->]].
  - replace (-0.5 * infinity * infinity) with neg_infinity by reflexivity.
    rewrite exp_neg_infinity. left. reflexivity.
  - replace (-0.5 * neg_infinity * neg_infinity) with neg_infinity
      by reflexivity.
    rewrite exp_neg_infinity. left. reflexivity.
  - replace (-0.5 * nan * nan) with nan by reflexivity.
    rewrite exp_nan. right; right. reflexivity.
Qed.

(** With [sigma * sqrt T] a zero (or NaN), [d1] is infinite or NaN and the
    density at [d1] is a zero or NaN. *)
Lemma normPDF_d1_degenerate S K T r sigma :
  zeroish (sigma * Math_sqrt T) ->
  zeroish (normPDF (bs_d1 S K T r sigma)).
Proof.
  intros Hz. apply normPDF_infish. unfold bs_d1.
  apply F64.div_by_zeroish, Hz.
Qed.

Lemma gamma_degenerate S K T r sigma ty :
  zeroish (sigma * Math_sqrt T) ->
  zeroish (S * sigma * Math_sqrt T) ->
  gamma (calculateBlackScholesGreeks S K T r sigma ty) = nan.
Proof.
  intros Hz Hden.
  unfold calculateBlackScholesGreeks. destruct ty; cbn [gamma];
    apply F64.div_zeroish; auto using normPDF_d1_degenerate.
Qed.

(** At expiry the first term of theta is 0/0. *)
Lemma theta_at_expiry S K r sigma ty :
  theta (calculateBlackScholesGreeks S K 0 r sigma ty) = nan.
Proof.
  assert (Hz : zeroish (sigma * Math_sqrt 0))
    by apply F64.mul_zeroish_r, zeroish_0.
  assert (Hterm : (- (S * normPDF (bs_d1 S K 0 r sigma) * sigma))
                  / (2 * Math_sqrt 0) = nan).
  { apply F64.div_zeroish; [| apply zeroish_0].
    apply F64.opp_zeroish, F64.mul_zeroish_l, F64.mul_zeroish_r.
    apply normPDF_d1_degenerate, Hz. }
  unfold calculateBlackScholesGreeks. destruct ty; cbn [theta]; rewrite Hterm.
  - rewrite F64.sub_nan_l. apply F64.div_nan_l.
  - rewrite F64.add_nan_l. apply F64.div_nan_l.
Qed.

Lemma gamma_at_expiry S K r sigma ty :
  gamma (calculateBlackScholesGreeks S K 0 r sigma ty) = nan.
Proof.
  apply gamma_degenerate; apply F64.mul_zeroish_r, zeroish_0.
Qed.

Lemma gamma_at_zero_volatility S K T r ty :
  gamma (calculateBlackScholesGreeks S K T r 0 ty) = nan.
Proof.
  apply gamma_degenerate.
  - apply F64.mul_zeroish_l, zeroish_0.
  - apply F64.mul_zeroish_l, F64.mul_zeroish_r, zeroish_0.
Qed.

(** A sum that meets a NaN term is NaN. *)
Lemma sum_nan_sticky {A} (g : A -> number) (l : list A) :
  fold_left (fun s x => s + g x) l nan = nan.
Proof.
  induction l as [| x l IH]; simpl; [reflexivity |].
  rewrite F64.add_nan_l. exact IH.
Qed.

Lemma totalTheta_at_expiry currentPrice (sigmaOf : OptionLeg -> number)
      opt options :
  fold_left
    (fun totalTheta o =>
       totalTheta
       + theta (calculateBlackScholesGreeks
                  currentPrice (strike o) (0 / 365) 0.05 (sigmaOf o) (type o))
         * multiplier o)
    (opt :: options) 0
  = nan.
Proof.
  simpl fold_left. change (0 / 365) with 0.
  rewrite theta_at_expiry, F64.mul_nan_l, F64.add_nan_r.
  apply (sum_nan_sticky
           (fun o => theta (calculateBlackScholesGreeks
                              currentPrice (strike o) 0 0.05 (sigmaOf o) (type o))
                     * multiplier o)).
Qed.

Lemma daysLoop_values : daysLoop = map of_nat (rev (seq 1 30)) ++ [0].
Proof. vm_compute. reflexivity. Qed.

Lemma timeDecay_days currentPrice options :
  map days (calculateTimeDecay currentPrice options) = map of_nat (seq 0 31).
Proof.
  unfold calculateTimeDecay. rewrite map_map. cbn [days].
  rewrite daysLoop_values. vm_compute. reflexivity.
Qed.

(** C6, as the code has it.  Nothing guards the Greeks formula: at T = 0 its
    theta and gamma are NaN, and at sigma = 0 its gamma is NaN, whatever the
    other inputs.  The time-decay series has 31 points, for 0 to 30 days
    elapsed; for a strategy with at least one leg the theta of the last
    point, computed at T = 0, is NaN. *)
Theorem greeks_degenerate_inputs_unguarded :
  (forall S K r sigma ty,
      theta (calculateBlackScholesGreeks S K 0 r sigma ty) = nan
      /\ gamma (calculateBlackScholesGreeks S K 0 r sigma ty) = nan)
  /\ (forall S K T r ty,
         gamma (calculateBlackScholesGreeks S K T r 0 ty) = nan)
  /\ (forall currentPrice options,
         map days (calculateTimeDecay currentPrice options)
         = map of_nat (seq 0 31))
  /\ (forall currentPrice opt options,
         exists points final,
           calculateTimeDecay currentPrice (opt :: options) = points ++ [final]
           /\ List.length points = 30%nat
           /\ days final = 30
           /\ td_theta final = nan).
Proof.
  split; [| split; [| split]].
  - intros. split; [apply theta_at_expiry | apply gamma_at_expiry].
  - intros. apply gamma_at_zero_volatility.
  - apply timeDecay_days.
  - intros currentPrice opt options.
    unfold calculateTimeDecay. rewrite daysLoop_values, map_app.
    eexists. eexists. split; [reflexivity |].
    split; [now rewrite !length_map, length_rev, length_seq |].
    split; [reflexivity |].
    cbn [td_theta].
    apply (totalTheta_at_expiry currentPrice
             (fun o => match volatility o with
                       | Some v => or_default v 0.2
                       | None => 0.2
                       end)).
Qed.

End Degenerate.

Lemma greeks_degenerate_inputs_unguarded_witness :
  exists points final,
    calculateTimeDecay (H := RefHost.host) 150 Samples.bullCallSpread
    = points ++ [final]
    /\ List.length points = 30%nat
    /\ days final = 30
    /\ td_theta final = nan.
Proof.
  exact (proj2 (proj2 (proj2
           (greeks_degenerate_inputs_unguarded (HS := RefHost_spec))))
           150 (Samples.leg 150 call buy 1 5) [Samples.leg 160 call sell 1 2]).
Defined.

(** On the long call at spot 150 the series is not free of NaN: its last
    theta is one. *)
Lemma timeDecay_has_nan :
  forallb (fun point => negb (is_nan (td_theta point)))
          (calculateTimeDecay (H := RefHost.host) 150 Samples.longCall)
  = false.
Proof. vm_compute. reflexivity. Qed.

(** ** Risk/reward and the risk score *)

Section RiskFacts.
Context {H : Host}.
Variable options : list OptionLeg.
Variable currentPrice : number.
Variable g : rng.

Lemma analysis_fields :
  let a := fst (calculateAnalysis options currentPrice g) in
  maxProfit a = calculateMaxProfit options
  /\ maxLoss a = calculateMaxLoss options
  /\ riskReward a = calculateMaxProfit options / Math_abs (calculateMaxLoss options)
  /\ probabilityOfProfit a
     = fst (calculateProbabilityOfProfit options currentPrice g)
  /\ breakeven a = calculateBreakeven options.
Proof.
  unfold calculateAnalysis.
  destruct (calculateProbabilityOfProfit options currentPrice g) as [pop g'].
  repeat split.
Qed.

(** [calculateMaxProfit] never returns a negative number. *)
Lemma calculateMaxProfit_nan_or_nonneg :
  calculateMaxProfit options = nan
  \/ (0 <=? calculateMaxProfit options) = true.
Proof.
  unfold calculateMaxProfit.
  destruct (existsb (fun p => is_nan (totalPayoff options p)) (sweep 1)) eqn:E.
  - left. apply existsb_exists in E as (price & Hin & Hnan).
    eapply running_max_hits_nan; eassumption.
  - right. apply running_max_nonneg; [reflexivity |].
    intros price Hin.
    destruct (is_nan (totalPayoff options price)) eqn:Hnan; [| reflexivity].
    assert (Hex : existsb (fun p => is_nan (totalPayoff options p)) (sweep 1)
                  = true)
      by (apply existsb_exists; exists price; split; assumption).
    rewrite Hex in E. discriminate E.
Qed.

Lemma riskReward_when_maxLoss_0 :
  (calculateMaxLoss options =? 0) = true ->
  riskReward (fst (calculateAnalysis options currentPrice g))
  = calculateMaxProfit options / 0.
Proof.
  intros Hloss. destruct analysis_fields as (_ & _ & -> & _).
  unfold Math_abs. now rewrite F64.abs_eq_zero.
Qed.

End RiskFacts.

Lemma calculateRiskScore_nan {H : Host} (a : AnalysisData) :
  riskReward a = nan -> calculateRiskScore a = nan.
Proof.
  intros Hrr. unfold calculateRiskScore. rewrite Hrr, Math_min_nan_l.
  rewrite F64.sub_nan_r, Math_max_nan_r, F64.mul_nan_l, F64.add_nan_r.
  apply Math_min_nan_r.
Qed.

(** C7, as the code has it.  With [maxLoss] equal to 0 the quotient
    [maxProfit / Math.abs(maxLoss)] is computed without a fault and is no
    sentinel: it is +Infinity when [maxProfit] is positive, which the cap
    [Math.min(riskReward, 3)] turns into 3, and NaN otherwise; in particular
    with [maxProfit] equal to 0 it is NaN, and so is the risk score. *)
Theorem riskReward_when_maxLoss_is_0 {H : Host}
        (options : list OptionLeg) (currentPrice : number) (g : rng) :
  let a := fst (calculateAnalysis options currentPrice g) in
  (maxLoss a =? 0) = true ->
  (riskReward a = infinity \/ riskReward a = nan)
  /\ ((0 <? maxProfit a) = true ->
      riskReward a = infinity /\ Math_min (riskReward a) 3 = 3)
  /\ ((maxProfit a =? 0) = true ->
      riskReward a = nan /\ calculateRiskScore a = nan).
Proof.
  intros a.
  destruct (analysis_fields options currentPrice g) as (Hp & Hl & _).
  fold a in Hp, Hl. rewrite Hp, Hl. intros Hloss.
  pose proof (riskReward_when_maxLoss_0 options currentPrice g Hloss) as Hrr.
  fold a in Hrr.
  pose proof (calculateMaxProfit_nan_or_nonneg options) as Hcases.
  clear Hp Hl Hloss. clearbody a.
  generalize dependent (calculateMaxProfit options). intros profit Hrr Hcases.
  assert (Hpos : (0 <? profit) = true -> riskReward a = infinity).
  { intros Hprofit. rewrite Hrr. apply F64.div_pos_zero, Hprofit. }
  assert (Hzero : (profit =? 0) = true -> riskReward a = nan).
  { intros Hprofit. rewrite Hrr.
    apply F64.div_zeroish; [apply F64.eq_zero_zeroish, Hprofit | left; reflexivity]. }
  split; [| split].
  - destruct Hcases as [Hnan | Hnn].
    + right. rewrite Hrr, Hnan. apply F64.div_nan_l.
    + destruct (F64.nonneg_cases profit Hnn) as [Hc | Hc];
        [left; exact (Hpos Hc) | right; exact (Hzero Hc)].
  - intros Hprofit. split; [exact (Hpos Hprofit) |].
    rewrite (Hpos Hprofit). reflexivity.
  - intros Hprofit. split; [exact (Hzero Hprofit) |].
    apply calculateRiskScore_nan. exact (Hzero Hprofit).
Qed.

Lemma riskReward_when_maxLoss_is_0_witness :
  riskReward (fst (calculateAnalysis (H := RefHost.host)
                                     Samples.costless 150 Samples.seed))
  = infinity
  /\ Math_min (riskReward (fst (calculateAnalysis (H := RefHost.host)
                                  Samples.costless 150 Samples.seed))) 3
     = 3.
Proof.
  assert (Hloss : (maxLoss (fst (calculateAnalysis (H := RefHost.host)
                                   Samples.costless 150 Samples.seed)) =? 0)
                  = true) by (vm_compute; reflexivity).
  assert (Hprofit : (0 <? maxProfit (fst (calculateAnalysis (H := RefHost.host)
                                            Samples.costless 150 Samples.seed)))
                    = true) by (vm_compute; reflexivity).
  exact (proj1 (proj2 (riskReward_when_maxLoss_is_0
                         (H := RefHost.host) Samples.costless 150 Samples.seed
                         Hloss))
               Hprofit).
Defined.

(** The same call bought and sold pays 0 at every price: [maxLoss] and
    [maxProfit] are 0, the ratio is NaN, and the risk score shown is NaN. *)
Lemma riskScore_nan_leak :
  (maxLoss (fst (calculateAnalysis (H := RefHost.host)
                                   Samples.boxed 150 Samples.seed)) =? 0) = true
  /\ riskReward (fst (calculateAnalysis (H := RefHost.host)
                                        Samples.boxed 150 Samples.seed)) = nan
  /\ calculateRiskScore (fst (calculateAnalysis (H := RefHost.host)
                                                Samples.boxed 150 Samples.seed))
     = nan.
Proof. split; [| split]; vm_compute; reflexivity. Qed.

(** C10.  With [maxLoss] equal to 0 and [maxProfit] positive, [riskReward]
    is +Infinity; inside [calculateRiskScore] the cap
    [Math.min(riskReward, 3)] is then 3 and the term
    [Math.max(0, 2 - riskReward) * 2] is 0, so that the score returned is
    [(1 - probabilityOfProfit / 100) * 4], a finite number between 0 and 4,
    hence between 0 and 10. *)
Theorem riskScore_when_riskReward_is_infinite {H : Host}
        (options : list OptionLeg) (currentPrice : number) (g : rng) :
  let a := fst (calculateAnalysis options currentPrice g) in
  (maxLoss a =? 0) = true ->
  (0 <? maxProfit a) = true ->
  riskReward a = infinity
  /\ Math_min (riskReward a) 3 = 3
  /\ Math_max 0 (2 - Math_min (riskReward a) 3) = 0
  /\ calculateRiskScore a
     = Math_min 10 (Math_abs (maxLoss a) / 1000 * 3
                    + (1 - probabilityOfProfit a / 100) * 4
                    + Math_max 0 (2 - Math_min (riskReward a) 3) * 2)
  /\ calculateRiskScore a = (1 - probabilityOfProfit a / 100) * 4
  /\ is_finite (calculateRiskScore a) = true
  /\ (0 <=? calculateRiskScore a) = true
  /\ (calculateRiskScore a <=? 4) = true
  /\ (calculateRiskScore a <=? 10) = true.
Proof.
  intros a.
  destruct (analysis_fields options currentPrice g) as (Hp & Hl & _ & Hpop & _).
  fold a in Hp, Hl, Hpop. intros Hloss Hprofit.
  rewrite Hl in Hloss. rewrite Hp in Hprofit.
  pose proof (riskReward_when_maxLoss_0 options currentPrice g Hloss) as Hrr.
  fold a in Hrr.
  assert (Hpct : exists k, (k <= 1000)%nat
                           /\ probabilityOfProfit a
                              = of_nat k / numSimulations * 100).
  { eexists. split; [apply (profitable_count_le options currentPrice g) |].
    rewrite Hpop, (calculateProbabilityOfProfit_value options currentPrice g).
    reflexivity. }
  assert (Habs : Math_abs (maxLoss a) = 0).
  { rewrite Hl. exact (F64.abs_eq_zero (calculateMaxLoss options) Hloss). }
  assert (Hinf : riskReward a = infinity).
  { rewrite Hrr. exact (F64.div_pos_zero (calculateMaxProfit options) Hprofit). }
  clear - Hpct Habs Hinf. clearbody a.
  destruct Hpct as (k & Hk & Hpct).
  split; [exact Hinf |].
  split; [rewrite Hinf; reflexivity |].
  split; [rewrite Hinf; reflexivity |].
  split; [reflexivity |].
  unfold calculateRiskScore. rewrite Habs, Hinf, Hpct.
  assert (Hall :
            forallb
              (fun k =>
                 let score :=
                   Math_min 10
                            (0 / 1000 * 3
                             + (1 - of_nat k / numSimulations * 100 / 100) * 4
                             + Math_max 0 (2 - Math_min infinity 3) * 2) in
                 Leibniz.eqb score
                             ((1 - of_nat k / numSimulations * 100 / 100) * 4)
                 && is_finite score && (0 <=? score) && (score <=? 4)
                 && (score <=? 10))
              (seq 0 1001) = true) by (vm_compute; reflexivity).
  rewrite forallb_forall in Hall.
  assert (Hin : In k (seq 0 1001)) by (apply in_seq; lia).
  apply Hall in Hin. cbv zeta in Hin.
  apply andb_true_iff in Hin as [Hin H10].
  apply andb_true_iff in Hin as [Hin H4].
  apply andb_true_iff in Hin as [Hin H0].
  apply andb_true_iff in Hin as [Heq Hfin].
  split; [exact (F64.leibniz_true _ _ Heq) |].
  split; [exact Hfin |].
  split; [exact H0 | split; [exact H4 | exact H10]].
Qed.

Lemma riskScore_when_riskReward_is_infinite_witness :
  riskReward (fst (calculateAnalysis (H := RefHost.host)
                                     Samples.costless 150 Samples.seed))
  = infinity
  /\ calculateRiskScore (fst (calculateAnalysis (H := RefHost.host)
                                Samples.costless 150 Samples.seed))
     = (1 - probabilityOfProfit
              (fst (calculateAnalysis (H := RefHost.host)
                      Samples.costless 150 Samples.seed)) / 100) * 4.
Proof.
  assert (Hloss : (maxLoss (fst (calculateAnalysis (H := RefHost.host)
                                   Samples.costless 150 Samples.seed)) =? 0)
                  = true) by (vm_compute; reflexivity).
  assert (Hprofit : (0 <? maxProfit (fst (calculateAnalysis (H := RefHost.host)
                                            Samples.costless 150 Samples.seed)))
                    = true) by (vm_compute; reflexivity).
  pose proof (riskScore_when_riskReward_is_infinite
                (H := RefHost.host) Samples.costless 150 Samples.seed
                Hloss Hprofit) as Hall.
  exact (conj (proj1 Hall) (proj1 (proj2 (proj2 (proj2 (proj2 Hall)))))).
Defined.

(** ** The strategy without legs *)

Lemma filter_none {A} (f : A -> bool) (l : list A) :
  (forall x, f x = false) -> filter f l = [].
Proof.
  intros Hf. induction l as [| x l IH]; simpl; [reflexivity |].
  rewrite Hf. exact IH.
Qed.

Lemma probabilityOfProfit_no_legs {H : Host} currentPrice g :
  fst (calculateProbabilityOfProfit [] currentPrice g) = 0.
Proof.
  rewrite calculateProbabilityOfProfit_value. cbv [fst].
  rewrite filter_none; [vm_compute; reflexivity |].
  intros u. reflexivity.
Qed.

(** The guards matter.  Applied to no legs the functions return 0 for the
    maximum profit, the maximum loss and the probability of profit, but
    [calculateBreakeven] returns all 401 sample prices (a payoff of 0 is
    within 0.01 of 0 everywhere) and [determineStrategyType] returns
    "Complex Strategy". *)
Remark no_legs_functions {H : Host} (currentPrice : number) (g : rng) :
  calculateMaxProfit [] = 0
  /\ calculateMaxLoss [] = 0
  /\ fst (calculateProbabilityOfProfit [] currentPrice g) = 0
  /\ calculateBreakeven [] = map (fun k => of_nat k / 2) (seq 100 401)
  /\ determineStrategyType (Some []) = "Complex Strategy"%string.
Proof.
  split; [vm_compute; reflexivity |].
  split; [vm_compute; reflexivity |].
  split; [apply probabilityOfProfit_no_legs |].
  split; [vm_compute; reflexivity | reflexivity].
Qed.

(** C5, as the code has it.  The component never analyses a strategy without
    legs.  A freshly mounted component keeps the initial state, with
    [maxProfit = 0], [maxLoss = 0], [breakeven = []] and
    [probabilityOfProfit = 0].  Whatever the state and the selected tab, it
    renders the empty container, which shows no strategy label and no value
    of the analysis.  The effect leaves every state as it is: when a
    strategy with legs was analysed before, the state still holds that
    analysis.  All of these are total functions. *)
Theorem no_legs_analysis {H : Host} (currentPrice : number) (g : rng) :
  mount (Some []) currentPrice g = (initialAnalysisData, g)
  /\ maxProfit initialAnalysisData = 0
  /\ maxLoss initialAnalysisData = 0
  /\ breakeven initialAnalysisData = []
  /\ probabilityOfProfit initialAnalysisData = 0
  /\ (forall selectedTab st,
         render (Some []) selectedTab st = EmptyContainer)
  /\ shownStrategyType EmptyContainer = None
  /\ shownData EmptyContainer = None
  /\ (forall st, effect (Some []) currentPrice st = st)
  /\ (forall o rest price st,
         effect (Some []) currentPrice (effect (Some (o :: rest)) price st)
         = calculateAnalysis (o :: rest) price (snd st)).
Proof.
  split; [reflexivity |].
  split; [reflexivity |]. split; [reflexivity |].
  split; [reflexivity |]. split; [reflexivity |].
  split; [intros selectedTab st; reflexivity |].
  split; [reflexivity |]. split; [reflexivity |].
  split; intros; reflexivity.
Qed.

(** A component that analysed one call bought at 150 for 5 and then receives
    a strategy without legs: the state still holds the analysis of the
    call, with a maximum profit of 95, a maximum loss of -5 and the
    breakeven price 155, behind the empty container. *)
Lemma no_legs_stale_analysis :
  maxProfit
    (fst (effect (H := RefHost.host) (Some []) 150
            (mount (H := RefHost.host) (Some Samples.longCall) 150
                   Samples.seed)))
  = 95
  /\ maxLoss
       (fst (effect (H := RefHost.host) (Some []) 150
               (mount (H := RefHost.host) (Some Samples.longCall) 150
                      Samples.seed)))
     = -5
  /\ breakeven
       (fst (effect (H := RefHost.host) (Some []) 150
               (mount (H := RefHost.host) (Some Samples.longCall) 150
                      Samples.seed)))
     = [155]
  /\ render (H := RefHost.host) (Some []) initialTab
       (effect (H := RefHost.host) (Some []) 150
          (mount (H := RefHost.host) (Some Samples.longCall) 150
                 Samples.seed))
     = EmptyContainer.
Proof.
  split; [vm_compute; reflexivity |].
  split; [vm_compute; reflexivity |].
  split; [vm_compute; reflexivity | reflexivity].
Qed.

(** ** Validation of the leg form *)

Section FormFacts.
Context {C : Form.Coercions}.

(** On fields that hold Numbers the form accepts exactly the legs with
    strike, quantity and premium all positive and volatility in (0, 5]. *)
Lemma validateForm_numbers K q p v t a :
  Form.validateForm
    {| Form.fd_strike := Form.Num K; Form.fd_type := t; Form.fd_action := a;
       Form.fd_quantity := Form.Num q; Form.fd_premium := Form.Num p;
       Form.fd_volatility := Form.Num v |}
  = (0 <? K) && (0 <? q) && (0 <? p) && ((0 <? v) && (v <=? 5)).
Proof.
  unfold Form.validateForm, Form.newErrors, Form.no_errors.
  cbn [Form.fd_strike Form.fd_quantity Form.fd_premium Form.fd_volatility
       Form.err_strike Form.err_quantity Form.err_premium Form.err_volatility
       Form.falsy Form.ToNumber].
  rewrite <- (F64.truthy_not_le_0 K), <- (F64.truthy_not_le_0 q),
          <- (F64.truthy_not_lt_0 p).
  destruct (0 <? v) eqn:Hv.
  - rewrite <- (F64.not_gt_5 v Hv). rewrite <- F64.truthy_not_lt_0 in Hv.
    apply andb_true_iff in Hv as [Ht Hn]. rewrite Ht.
    apply negb_true_iff in Hn. rewrite Hn.
    destruct (truthy K), (K <=? 0), (truthy q), (q <=? 0), (truthy p),
             (p <? 0), (5 <? v); reflexivity.
  - rewrite <- F64.truthy_not_lt_0 in Hv.
    destruct (truthy v), (v <? 0); try discriminate Hv;
      destruct (truthy K), (K <=? 0), (truthy q), (q <=? 0), (truthy p),
               (p <? 0), (5 <? v); reflexivity.
Qed.

(** Submission is all or nothing: no leg without a valid form, and with a
    valid form the leg whose fields are the parsed form fields. *)
Lemma handleSubmit_atomic formData :
  (Form.validateForm formData = false -> Form.handleSubmit formData = None)
  /\ (Form.validateForm formData = true ->
      Form.handleSubmit formData
      = Some {| strike := Form.parseFloat (Form.fd_strike formData);
                type := Form.fd_type formData;
                action := Form.fd_action formData;
                quantity := Form.parseInt (Form.fd_quantity formData);
                premium := Form.parseFloat (Form.fd_premium formData);
                volatility :=
                  Some (Form.parseFloat (Form.fd_volatility formData)) |}).
Proof. unfold Form.handleSubmit. split; intros ->; reflexivity. Qed.

(** Typed as the text "0", the same premium passes: a non-empty String is
    truthy, and its Number is not below 0. *)
Lemma premium_typed_zero_accepted K q v t a :
  Form.StringToNumber "0" = 0 ->
  Form.validateForm
    {| Form.fd_strike := Form.Num K; Form.fd_type := t; Form.fd_action := a;
       Form.fd_quantity := Form.Num q; Form.fd_premium := Form.Str "0";
       Form.fd_volatility := Form.Num v |}
  = (0 <? K) && (0 <? q) && ((0 <? v) && (v <=? 5)).
Proof.
  intros Hzero.
  transitivity
    (Form.validateForm
       {| Form.fd_strike := Form.Num K; Form.fd_type := t; Form.fd_action := a;
          Form.fd_quantity := Form.Num q; Form.fd_premium := Form.Num 1;
          Form.fd_volatility := Form.Num v |}).
  - unfold Form.validateForm, Form.newErrors, Form.no_errors.
    cbn [Form.fd_strike Form.fd_quantity Form.fd_premium Form.fd_volatility
         Form.err_strike Form.err_quantity Form.err_premium
         Form.err_volatility Form.falsy Form.ToNumber].
    rewrite Hzero. reflexivity.
  - rewrite validateForm_numbers.
    replace (0 <? 1) with true by reflexivity.
    rewrite andb_true_r. reflexivity.
Qed.

(** C8 at a premium of 0.  A chain row without a call bid initialises the
    premium field to 0; with every other field valid the form reports
    "Premium must be 0 or greater" for it and produces no leg, and so does
    any form whose premium field holds the Number 0. *)
Theorem premium_zero_rejected :
  (let formData :=
     Form.initialFormData
       {| Form.row_strike := 150; Form.callBid := None; Form.iv := Some 0.25 |} in
   Form.fd_premium formData = Form.Num 0
   /\ Form.newErrors formData
      = {| Form.err_strike := None; Form.err_quantity := None;
           Form.err_premium := Some "Premium must be 0 or greater"%string;
           Form.err_volatility := None |}
   /\ Form.validateForm formData = false
   /\ Form.handleSubmit formData = None)
  /\ (forall K q v t a,
         Form.handleSubmit
           {| Form.fd_strike := Form.Num K; Form.fd_type := t;
              Form.fd_action := a; Form.fd_quantity := Form.Num q;
              Form.fd_premium := Form.Num 0; Form.fd_volatility := Form.Num v |}
         = None).
Proof.
  split.
  - cbv zeta. split; [reflexivity |]. split; [vm_compute; reflexivity |].
    split; vm_compute; reflexivity.
  - intros K q v t a. apply handleSubmit_atomic.
    rewrite validateForm_numbers.
    replace (0 <? 0) with false by reflexivity.
    now rewrite andb_false_r.
Qed.

End FormFacts.

(** ** The analytics on the sample strategies, under the reference host *)

Example longCall_analysis :
  calculateMaxLoss Samples.longCall = -5
  /\ calculateMaxProfit Samples.longCall = 95
  /\ calculateBreakeven Samples.longCall = [155]
  /\ determineStrategyType (Some Samples.longCall) = "Long Call"%string
  /\ (0.5 <? delta (calculateGreeks (H := RefHost.host) Samples.longCall 150))
     = true
  /\ (delta (calculateGreeks (H := RefHost.host) Samples.longCall 150) <? 0.6)
     = true.
Proof.
  split; [vm_compute; reflexivity |]. split; [vm_compute; reflexivity |].
  split; [vm_compute; reflexivity |]. split; [reflexivity |].
  split; vm_compute; reflexivity.
Qed.

Example bullCallSpread_analysis :
  calculateMaxProfit Samples.bullCallSpread = 7
  /\ calculateMaxLoss Samples.bullCallSpread = -3
  /\ determineStrategyType (Some Samples.bullCallSpread) = "Call Spread"%string.
Proof.
  split; [vm_compute; reflexivity |]. split; [vm_compute; reflexivity |].
  reflexivity.
Qed.

(** * Further properties *)

(** ** The order of binary64 *)

Module F64Order.

Lemma cmp_em_refl e m : cmp_em e m e m = Eq.
Proof. unfold cmp_em. now rewrite Z.compare_refl, Pos.compare_refl. Qed.

Lemma cmp_em_antisym e1 m1 e2 m2 :
  cmp_em e2 m2 e1 m1 = CompOpp (cmp_em e1 m1 e2 m2).
Proof.
  unfold cmp_em. rewrite (Z.compare_antisym e1 e2), (Pos.compare_antisym m1 m2).
  destruct (e1 ?= e2)%Z; reflexivity.
Qed.

Lemma cmp_em_spec e1 m1 e2 m2 :
  match cmp_em e1 m1 e2 m2 with
  | Lt => (e1 < e2)%Z \/ (e1 = e2 /\ (m1 < m2)%positive)
  | Eq => e1 = e2 /\ m1 = m2
  | Gt => (e2 < e1)%Z \/ (e1 = e2 /\ (m2 < m1)%positive)
  end.
Proof.
  unfold cmp_em.
  destruct (Z.compare_spec e1 e2); auto.
  destruct (Pos.compare_spec m1 m2); auto.
Qed.

Lemma SFcompare_finite s1 m1 e1 s2 m2 e2 :
  SFcompare (S754_finite s1 m1 e1) (S754_finite s2 m2 e2)
  = Some (match s1, s2 with
          | true, false => Lt
          | false, true => Gt
          | false, false => cmp_em e1 m1 e2 m2
          | true, true => CompOpp (cmp_em e1 m1 e2 m2)
          end).
Proof.
  unfold cmp_em, Pos.compare. destruct s1, s2; cbn [SFcompare]; try reflexivity;
    destruct (e1 ?= e2)%Z; reflexivity.
Qed.

Lemma SFcompare_trans x y z :
  not_gt (SFcompare x y) = true -> not_gt (SFcompare y z) = true ->
  not_gt (SFcompare x z) = true.
Proof.
  destruct x as [sx | sx | | sx mx ex], y as [sy | sy | | sy my ey],
           z as [sz | sz | | sz mz ez];
    rewrite ?SFcompare_finite;
    try (cbn; discriminate); try (cbn; reflexivity);
    try (destruct sx; cbn; try discriminate; try reflexivity;
         destruct sy; cbn; try discriminate; try reflexivity;
         destruct sz; cbn; try discriminate; try reflexivity; fail).
  all: try (destruct sx, sy; cbn; try discriminate; try reflexivity;
            destruct sz; cbn; try discriminate; try reflexivity; fail).
  destruct sx, sy, sz; cbn [not_gt]; try discriminate; try reflexivity;
    pose proof (cmp_em_spec ex mx ey my) as H1;
    pose proof (cmp_em_spec ey my ez mz) as H2;
    pose proof (cmp_em_spec ex mx ez mz) as H3;
    destruct (cmp_em ex mx ey my), (cmp_em ey my ez mz), (cmp_em ex mx ez mz);
    cbn; try discriminate; try reflexivity; intros _ _; exfalso; lia.
Qed.

Lemma SFcompare_antisym x y :
  SFcompare y x = option_map CompOpp (SFcompare x y).
Proof.
  destruct x as [sx | sx | | sx mx ex], y as [sy | sy | | sy my ey];
    rewrite ?SFcompare_finite; try reflexivity;
    try (destruct sx; try reflexivity; destruct sy; reflexivity).
  destruct sx, sy; cbn [option_map]; try reflexivity;
    rewrite (cmp_em_antisym ex mx ey my); try reflexivity;
    now destruct (cmp_em ex mx ey my).
Qed.

Lemma SFcompare_refl x : x <> S754_nan -> SFcompare x x = Some Eq.
Proof.
  destruct x as [s | s | | s m e]; intros Hx; try reflexivity;
    try (destruct s; reflexivity); try congruence.
  rewrite SFcompare_finite, cmp_em_refl. now destruct s.
Qed.

Lemma SFcompare_nan_iff x y :
  SFcompare x y = None <-> x = S754_nan \/ y = S754_nan.
Proof.
  destruct x as [sx | sx | | sx mx ex], y as [sy | sy | | sy my ey];
    rewrite ?SFcompare_finite; cbn;
    split; intros Hc; auto; try discriminate;
    try (destruct Hc; discriminate);
    try (destruct sx; discriminate); try (destruct sy; discriminate).
Qed.

(** The same on the primitive comparisons. *)
Lemma le_trans a b c :
  (a <=? b) = true -> (b <=? c) = true -> (a <=? c) = true.
Proof.
  rewrite !leb_spec. unfold SFleb.
  intros Hab Hbc.
  apply (SFcompare_trans (Prim2SF a) (Prim2SF b) (Prim2SF c)); assumption.
Qed.

Lemma lt_le a b : (a <? b) = true -> (a <=? b) = true.
Proof.
  rewrite leb_spec, ltb_spec. unfold SFleb, SFltb.
  destruct (SFcompare (Prim2SF a) (Prim2SF b)) as [[| |] |];
    try discriminate; reflexivity.
Qed.

Lemma le_refl a : is_nan a = false -> (a <=? a) = true.
Proof.
  intros Ha. rewrite leb_spec. unfold SFleb.
  rewrite SFcompare_refl; [reflexivity |].
  intros Hn. apply F64.is_nan_SF in Hn. congruence.
Qed.

Lemma not_lt_ge a b :
  is_nan a = false -> is_nan b = false ->
  (a <? b) = false -> (b <=? a) = true.
Proof.
  intros Ha Hb. rewrite leb_spec, ltb_spec. unfold SFleb, SFltb.
  rewrite (SFcompare_antisym (Prim2SF a) (Prim2SF b)).
  destruct (SFcompare (Prim2SF a) (Prim2SF b)) as [[| |] |] eqn:Hc;
    cbn; try discriminate; try reflexivity.
  apply SFcompare_nan_iff in Hc as [Hc | Hc];
    apply F64.is_nan_SF in Hc; congruence.
Qed.

Lemma le_not_nan a b :
  (a <=? b) = true -> is_nan a = false /\ is_nan b = false.
Proof.
  rewrite leb_spec. unfold SFleb. intros Hab.
  split.
  - destruct (is_nan a) eqn:E; [| reflexivity].
    apply F64.is_nan_SF in E. rewrite E in Hab. discriminate.
  - destruct (is_nan b) eqn:E; [| reflexivity].
    apply F64.is_nan_SF in E. rewrite E in Hab.
    destruct (Prim2SF a); discriminate.
Qed.

End F64Order.

(** ** Signs under rounding *)

Module F64Sign.

Lemma shr_1_nonneg mrs : (0 <= shr_m mrs)%Z -> (0 <= shr_m (shr_1 mrs))%Z.
Proof.
  destruct mrs as [m r s]. destruct m as [| p | p]; cbn; try lia;
    destruct p; cbn; lia.
Qed.

Lemma iter_pos_invariant {A} (f : A -> A) (P : A -> Prop) :
  (forall x, P x -> P (f x)) -> forall p x, P x -> P (SpecFloat.iter_pos f p x).
Proof.
  intros Hf. induction p as [p IH | p IH |]; intros x Hx; cbn; auto.
Qed.

Lemma shr_nonneg mrs e n :
  (0 <= shr_m mrs)%Z -> (0 <= shr_m (fst (shr mrs e n)))%Z.
Proof.
  intros Hm. destruct n as [| p | p]; cbn; try exact Hm.
  apply (iter_pos_invariant shr_1 (fun r => (0 <= shr_m r)%Z) shr_1_nonneg p mrs Hm).
Qed.

Lemma shr_fexp_nonneg m e l :
  (0 <= m)%Z -> (0 <= shr_m (fst (shr_fexp prec emax m e l)))%Z.
Proof.
  intros Hm. unfold shr_fexp. apply shr_nonneg.
  destruct l as [| []]; exact Hm.
Qed.

Lemma round_nearest_even_nonneg m l :
  (0 <= m)%Z -> (0 <= round_nearest_even m l)%Z.
Proof.
  intros Hm. destruct l as [| []]; cbn; try exact Hm; try lia.
  destruct (Z.even m); lia.
Qed.

(** Rounding a non-negative magnitude keeps the sign it is given and never
    makes a NaN. *)
Lemma binary_round_aux_sign s m e l :
  (0 <= m)%Z -> has_sign s (binary_round_aux prec emax s m e l).
Proof.
  intros Hm. unfold binary_round_aux.
  pose proof (shr_fexp_nonneg m e l Hm) as H1.
  destruct (shr_fexp prec emax m e l) as [mrs1 e1]. cbn [fst] in H1.
  pose proof (shr_fexp_nonneg _ e1 loc_Exact
                (round_nearest_even_nonneg _ (loc_of_shr_record mrs1) H1)) as H2.
  destruct (shr_fexp prec emax
              (round_nearest_even (shr_m mrs1) (loc_of_shr_record mrs1))
              e1 loc_Exact) as [mrs2 e2].
  cbn [fst] in H2.
  destruct (shr_m mrs2) as [| p | p]; [reflexivity | | lia].
  destruct (e2 <=? emax - prec)%Z; reflexivity.
Qed.

Lemma binary_round_sign s m e : has_sign s (binary_round prec emax s m e).
Proof.
  unfold binary_round.
  destruct (shl_align m e _) as [mz ez]. apply binary_round_aux_sign. lia.
Qed.

Lemma SFadd_nonneg x y :
  has_sign false x -> has_sign false y -> has_sign false (SF64add x y).
Proof.
  unfold SF64add.
  destruct x as [sx | sx | | sx mx ex], y as [sy | sy | | sy my ey];
    cbn [has_sign]; intros Hx Hy; subst; try contradiction; try reflexivity.
  cbn [SFadd cond_Zopp].
  set (a := fst (shl_align mx ex (Z.min ex ey))).
  set (b := fst (shl_align my ey (Z.min ex ey))).
  cbn [Z.add binary_normalize]. apply binary_round_sign.
Qed.

Lemma SFmul_nonneg x y :
  has_sign false x -> has_sign false y ->
  SF64mul x y = S754_nan \/ has_sign false (SF64mul x y).
Proof.
  unfold SF64mul.
  destruct x as [sx | sx | | sx mx ex], y as [sy | sy | | sy my ey];
    cbn [has_sign]; intros Hx Hy; subst; try contradiction;
    try (right; reflexivity); try (left; reflexivity).
  right. cbn [SFmul xorb]. apply binary_round_aux_sign. lia.
Qed.

Lemma SFmul_nonneg_finite x m e :
  has_sign false x -> has_sign false (SF64mul x (S754_finite false m e)).
Proof.
  unfold SF64mul.
  destruct x as [sx | sx | | sx mx ex]; cbn [has_sign]; intros Hx; subst;
    try contradiction; try reflexivity.
  cbn [SFmul xorb]. apply binary_round_aux_sign. lia.
Qed.

Lemma SFdiv_core_nonneg mx ex my ey :
  (0 <= fst (fst (SFdiv_core_binary prec emax (Zpos mx) ex (Zpos my) ey)))%Z.
Proof.
  unfold SFdiv_core_binary.
  set (s := (ex - ey - _)%Z).
  set (m' := match s with Zpos _ => Z.shiftl (Zpos mx) s | Z0 => Zpos mx | Zneg _ => 0%Z end).
  assert (Hm' : (0 <= m')%Z).
  { unfold m'. destruct s; try lia. apply Z.shiftl_nonneg. lia. }
  pose proof (Z.div_pos m' (Zpos my) Hm' ltac:(lia)) as Hq.
  unfold Z.div in Hq.
  destruct (Z.div_eucl m' (Zpos my)) as [q r]. exact Hq.
Qed.

Lemma SFdiv_nonneg_finite x m e :
  has_sign false x -> has_sign false (SF64div x (S754_finite false m e)).
Proof.
  unfold SF64div.
  destruct x as [sx | sx | | sx mx ex]; cbn [has_sign]; intros Hx; subst;
    try contradiction; try reflexivity.
  cbn [SFdiv xorb].
  pose proof (SFdiv_core_nonneg mx ex m e) as Hq.
  destruct (SFdiv_core_binary prec emax (Zpos mx) ex (Zpos m) e) as [[mz ez] lz].
  apply binary_round_aux_sign. exact Hq.
Qed.

(** A finite number minus a number is a number. *)
Lemma SFsub_finite_not_nan s m e y :
  y <> S754_nan -> SF64sub (S754_finite s m e) y <> S754_nan.
Proof.
  unfold SF64sub.
  destruct y as [sy | sy | | sy my ey]; intros Hy; try congruence;
    try (cbn; discriminate).
  cbn [SFsub].
  set (z := (_ - _)%Z). unfold binary_normalize.
  destruct z as [| p | p]; try discriminate.
  - pose proof (binary_round_sign false p (Z.min e ey)) as Hs.
    intros Hn. rewrite Hn in Hs. exact Hs.
  - pose proof (binary_round_sign true p (Z.min e ey)) as Hs.
    intros Hn. rewrite Hn in Hs. exact Hs.
Qed.

End F64Sign.

(** ** [Math.max] and [Math.min] as bounds *)

Lemma Math_max_either a b : Math_max a b = a \/ Math_max a b = b.
Proof.
  unfold Math_max.
  destruct (is_nan a) eqn:Ea.
  - left. apply F64.is_nan_true in Ea. subst. reflexivity.
  - destruct (is_nan b) eqn:Eb.
    + right. apply F64.is_nan_true in Eb. subst. reflexivity.
    + cbn [orb]. destruct (is_neg_zero a && is_pos_zero b); auto.
      destruct (a <? b); auto.
Qed.

Lemma Math_min_either a b : Math_min a b = a \/ Math_min a b = b.
Proof.
  unfold Math_min.
  destruct (is_nan a) eqn:Ea.
  - left. apply F64.is_nan_true in Ea. subst. reflexivity.
  - destruct (is_nan b) eqn:Eb.
    + right. apply F64.is_nan_true in Eb. subst. reflexivity.
    + cbn [orb]. destruct (is_pos_zero a && is_neg_zero b); auto.
      destruct (b <? a); auto.
Qed.

Lemma Math_max_upper a b :
  is_nan a = false -> is_nan b = false ->
  (a <=? Math_max a b) = true /\ (b <=? Math_max a b) = true.
Proof.
  intros Ha Hb. unfold Math_max. rewrite Ha, Hb. cbn [orb].
  destruct (is_neg_zero a && is_pos_zero b) eqn:Ez.
  - apply andb_true_iff in Ez as [Ea Eb].
    apply F64.leibniz_true in Ea, Eb. subst. split; reflexivity.
  - destruct (a <? b) eqn:Elt.
    + split; [apply F64Order.lt_le, Elt | apply F64Order.le_refl, Hb].
    + split; [apply F64Order.le_refl, Ha | now apply F64Order.not_lt_ge].
Qed.

Lemma Math_min_lower a b :
  is_nan a = false -> is_nan b = false ->
  (Math_min a b <=? a) = true /\ (Math_min a b <=? b) = true.
Proof.
  intros Ha Hb. unfold Math_min. rewrite Ha, Hb. cbn [orb].
  destruct (is_pos_zero a && is_neg_zero b) eqn:Ez.
  - apply andb_true_iff in Ez as [Ea Eb].
    apply F64.leibniz_true in Ea, Eb. subst. split; reflexivity.
  - destruct (b <? a) eqn:Elt.
    + split; [apply F64Order.lt_le, Elt | apply F64Order.le_refl, Hb].
    + split; [apply F64Order.le_refl, Ha | now apply F64Order.not_lt_ge].
Qed.

Section Extremes.
Variable payoff : number -> number.

Lemma running_max_attained prices : forall acc,
  fold_left (fun m price => Math_max m (payoff price)) prices acc = acc
  \/ exists price, In price prices
                   /\ fold_left (fun m price => Math_max m (payoff price)) prices acc
                      = payoff price.
Proof.
  induction prices as [| q prices IH]; intros acc; cbn [fold_left].
  - now left.
  - destruct (IH (Math_max acc (payoff q))) as [Heq | (price & Hin & Heq)].
    + rewrite Heq. destruct (Math_max_either acc (payoff q)) as [-> | ->].
      * now left.
      * right. exists q. split; [now left | reflexivity].
    + right. exists price. split; [now right | exact Heq].
Qed.

Lemma running_min_attained prices : forall acc,
  fold_left (fun m price => Math_min m (payoff price)) prices acc = acc
  \/ exists price, In price prices
                   /\ fold_left (fun m price => Math_min m (payoff price)) prices acc
                      = payoff price.
Proof.
  induction prices as [| q prices IH]; intros acc; cbn [fold_left].
  - now left.
  - destruct (IH (Math_min acc (payoff q))) as [Heq | (price & Hin & Heq)].
    + rewrite Heq. destruct (Math_min_either acc (payoff q)) as [-> | ->].
      * now left.
      * right. exists q. split; [now left | reflexivity].
    + right. exists price. split; [now right | exact Heq].
Qed.

Lemma Math_max_number a b :
  is_nan a = false -> is_nan b = false -> is_nan (Math_max a b) = false.
Proof.
  intros Ha Hb. destruct (Math_max_either a b) as [-> | ->]; assumption.
Qed.

Lemma Math_min_number a b :
  is_nan a = false -> is_nan b = false -> is_nan (Math_min a b) = false.
Proof.
  intros Ha Hb. destruct (Math_min_either a b) as [-> | ->]; assumption.
Qed.

Lemma running_max_upper prices : forall acc,
  is_nan acc = false ->
  (forall price, In price prices -> is_nan (payoff price) = false) ->
  (acc <=? fold_left (fun m price => Math_max m (payoff price)) prices acc) = true
  /\ forall price, In price prices ->
       (payoff price
        <=? fold_left (fun m price => Math_max m (payoff price)) prices acc)
       = true.
Proof.
  induction prices as [| q prices IH]; intros acc Hacc Hnum; cbn [fold_left].
  - split; [apply F64Order.le_refl, Hacc | intros price []].
  - assert (Hq : is_nan (payoff q) = false) by (apply Hnum; now left).
    destruct (Math_max_upper acc (payoff q) Hacc Hq) as [Hl Hr].
    destruct (IH (Math_max acc (payoff q))
                 (Math_max_number _ _ Hacc Hq)
                 (fun p Hp => Hnum p (or_intror Hp))) as [Hstep Hrest].
    split.
    + eapply F64Order.le_trans; eassumption.
    + intros price [<- | Hin].
      * eapply F64Order.le_trans; eassumption.
      * apply Hrest, Hin.
Qed.

Lemma running_min_lower prices : forall acc,
  is_nan acc = false ->
  (forall price, In price prices -> is_nan (payoff price) = false) ->
  (fold_left (fun m price => Math_min m (payoff price)) prices acc <=? acc) = true
  /\ forall price, In price prices ->
       (fold_left (fun m price => Math_min m (payoff price)) prices acc
        <=? payoff price)
       = true.
Proof.
  induction prices as [| q prices IH]; intros acc Hacc Hnum; cbn [fold_left].
  - split; [apply F64Order.le_refl, Hacc | intros price []].
  - assert (Hq : is_nan (payoff q) = false) by (apply Hnum; now left).
    destruct (Math_min_lower acc (payoff q) Hacc Hq) as [Hl Hr].
    destruct (IH (Math_min acc (payoff q))
                 (Math_min_number _ _ Hacc Hq)
                 (fun p Hp => Hnum p (or_intror Hp))) as [Hstep Hrest].
    split.
    + eapply F64Order.le_trans; eassumption.
    + intros price [<- | Hin].
      * eapply F64Order.le_trans; eassumption.
      * apply Hrest, Hin.
Qed.

End Extremes.

Lemma sample_price_in_sweep k :
  (50 <= k <= 250)%nat -> In (of_nat k) (sweep 1).
Proof.
  intros Hk. rewrite sweep_1_values. apply in_map, in_seq. lia.
Qed.

(** X1.  [calculateMaxProfit] is the largest of 0 and the total payoffs at the
    integer prices 50 to 250. *)
Theorem calculateMaxProfit_is_maximum (options : list OptionLeg) :
  (forall k, (50 <= k <= 250)%nat ->
             is_nan (totalPayoff options (of_nat k)) = false) ->
  (forall k, (50 <= k <= 250)%nat ->
             (totalPayoff options (of_nat k) <=? calculateMaxProfit options)
             = true)
  /\ (calculateMaxProfit options = 0
      \/ exists k, (50 <= k <= 250)%nat
                   /\ calculateMaxProfit options = totalPayoff options (of_nat k)).
Proof.
  intros Hnum.
  assert (Hnum' : forall price, In price (sweep 1) ->
                                is_nan (totalPayoff options price) = false).
  { intros price Hin. rewrite sweep_1_values in Hin.
    apply in_map_iff in Hin as (k & <- & Hk). apply in_seq in Hk.
    apply Hnum. lia. }
  unfold calculateMaxProfit. split.
  - intros k Hk.
    apply (running_max_upper (totalPayoff options) (sweep 1) 0 eq_refl Hnum').
    apply sample_price_in_sweep, Hk.
  - destruct (running_max_attained (totalPayoff options) (sweep 1) 0)
      as [Heq | (price & Hin & Heq)]; [now left | right].
    rewrite sweep_1_values in Hin.
    apply in_map_iff in Hin as (k & <- & Hk). apply in_seq in Hk.
    exists k. split; [lia | exact Heq].
Qed.

(** X2.  [calculateMaxLoss] is the smallest of 0 and the total payoffs at the
    integer prices 50 to 250. *)
Theorem calculateMaxLoss_is_minimum (options : list OptionLeg) :
  (forall k, (50 <= k <= 250)%nat ->
             is_nan (totalPayoff options (of_nat k)) = false) ->
  (forall k, (50 <= k <= 250)%nat ->
             (calculateMaxLoss options <=? totalPayoff options (of_nat k))
             = true)
  /\ (calculateMaxLoss options = 0
      \/ exists k, (50 <= k <= 250)%nat
                   /\ calculateMaxLoss options = totalPayoff options (of_nat k)).
Proof.
  intros Hnum.
  assert (Hnum' : forall price, In price (sweep 1) ->
                                is_nan (totalPayoff options price) = false).
  { intros price Hin. rewrite sweep_1_values in Hin.
    apply in_map_iff in Hin as (k & <- & Hk). apply in_seq in Hk.
    apply Hnum. lia. }
  unfold calculateMaxLoss. split.
  - intros k Hk.
    apply (running_min_lower (totalPayoff options) (sweep 1) 0 eq_refl Hnum').
    apply sample_price_in_sweep, Hk.
  - destruct (running_min_attained (totalPayoff options) (sweep 1) 0)
      as [Heq | (price & Hin & Heq)]; [now left | right].
    rewrite sweep_1_values in Hin.
    apply in_map_iff in Hin as (k & <- & Hk). apply in_seq in Hk.
    exists k. split; [lia | exact Heq].
Qed.

Lemma bullCallSpread_payoffs_are_numbers k :
  (50 <= k <= 250)%nat ->
  is_nan (totalPayoff Samples.bullCallSpread (of_nat k)) = false.
Proof.
  intros Hk.
  assert (Hall : forallb
                   (fun k => negb (is_nan (totalPayoff Samples.bullCallSpread
                                                       (of_nat k))))
                   (seq 50 201) = true) by (vm_compute; reflexivity).
  rewrite forallb_forall in Hall.
  apply negb_true_iff, Hall, in_seq. lia.
Qed.

Lemma calculateMaxProfit_is_maximum_witness :
  (totalPayoff Samples.bullCallSpread (of_nat 200)
   <=? calculateMaxProfit Samples.bullCallSpread) = true.
Proof.
  apply (proj1 (calculateMaxProfit_is_maximum
                  Samples.bullCallSpread bullCallSpread_payoffs_are_numbers)).
  lia.
Defined.

Lemma calculateMaxLoss_is_minimum_witness :
  (calculateMaxLoss Samples.bullCallSpread
   <=? totalPayoff Samples.bullCallSpread (of_nat 100)) = true.
Proof.
  apply (proj1 (calculateMaxLoss_is_minimum
                  Samples.bullCallSpread bullCallSpread_payoffs_are_numbers)).
  lia.
Defined.

(** ** The range of the risk score *)

Lemma signed_nonnegb_sound x : signed_nonnegb x = true -> signed_nonneg x.
Proof.
  unfold signed_nonnegb, signed_nonneg.
  destruct (Prim2SF x) as [s | s | | s m e]; cbn; try discriminate;
    destruct s; (discriminate || reflexivity).
Qed.

Lemma signed_nonneg_le x : signed_nonneg x -> (0 <=? x) = true.
Proof.
  unfold signed_nonneg. rewrite leb_spec, F64.SF_zero.
  destruct (Prim2SF x) as [s | s | | s m e]; cbn; intros Hs; subst;
    (reflexivity || contradiction).
Qed.

Lemma signed_nonneg_not_nan x : signed_nonneg x -> is_nan x = false.
Proof. intros Hx. apply not_nan_of_nonneg, signed_nonneg_le, Hx. Qed.

Lemma not_nan_SF x : is_nan x = false <-> Prim2SF x <> S754_nan.
Proof.
  split.
  - intros Hx Hn. apply F64.is_nan_SF in Hn. congruence.
  - intros Hx. destruct (is_nan x) eqn:E; [| reflexivity].
    apply F64.is_nan_SF in E. contradiction.
Qed.

Lemma abs_signed_nonneg x : is_nan x = false -> signed_nonneg (abs x).
Proof.
  intros Hx. apply not_nan_SF in Hx. unfold signed_nonneg.
  rewrite abs_spec. destruct (Prim2SF x); cbn; congruence.
Qed.

Lemma add_signed_nonneg x y :
  signed_nonneg x -> signed_nonneg y -> signed_nonneg (x + y).
Proof.
  unfold signed_nonneg. rewrite add_spec. apply F64Sign.SFadd_nonneg.
Qed.

(** Multiplying and dividing by a positive finite constant. *)
Lemma mul_signed_nonneg x c m e :
  Prim2SF c = S754_finite false m e ->
  signed_nonneg x -> signed_nonneg (x * c).
Proof.
  unfold signed_nonneg. intros Hc Hx. rewrite mul_spec, Hc.
  apply F64Sign.SFmul_nonneg_finite, Hx.
Qed.

Lemma div_signed_nonneg x c m e :
  Prim2SF c = S754_finite false m e ->
  signed_nonneg x -> signed_nonneg (x / c).
Proof.
  unfold signed_nonneg. intros Hc Hx. rewrite div_spec, Hc.
  apply F64Sign.SFdiv_nonneg_finite, Hx.
Qed.

Lemma sub_from_finite_not_nan c s m e y :
  Prim2SF c = S754_finite s m e ->
  is_nan y = false -> is_nan (c - y) = false.
Proof.
  intros Hc Hy. apply not_nan_SF. rewrite sub_spec, Hc.
  apply F64Sign.SFsub_finite_not_nan. apply not_nan_SF, Hy.
Qed.

Lemma div_nan_r x : x / nan = nan.
Proof.
  apply Prim2SF_inj. rewrite div_spec, F64.SF_nan.
  destruct (Prim2SF x); reflexivity.
Qed.

Lemma abs_nan_iff x : is_nan (abs x) = is_nan x.
Proof.
  destruct (is_nan x) eqn:E.
  - apply F64.is_nan_true in E. subst. reflexivity.
  - apply signed_nonneg_not_nan, abs_signed_nonneg, E.
Qed.

Lemma lt_0_signed_nonneg z : (0 <? z) = true -> signed_nonneg z.
Proof.
  unfold signed_nonneg. rewrite ltb_spec, F64.SF_zero.
  destruct (Prim2SF z) as [s | s | | s m e]; cbn; try discriminate;
    destruct s; (discriminate || reflexivity).
Qed.

Lemma Math_max_0_signed_nonneg z :
  is_nan z = false -> signed_nonneg (Math_max 0 z).
Proof.
  intros Hz. unfold Math_max. rewrite Hz.
  replace (is_nan 0) with false by reflexivity.
  replace (is_neg_zero 0) with false by reflexivity.
  cbn [orb andb].
  destruct (0 <? z) eqn:E; [apply lt_0_signed_nonneg, E | reflexivity].
Qed.

Lemma Math_min_10_bounds s :
  signed_nonneg s ->
  (0 <=? Math_min 10 s) = true /\ (Math_min 10 s <=? 10) = true.
Proof.
  intros Hs. unfold Math_min.
  rewrite (signed_nonneg_not_nan s Hs).
  replace (is_nan 10) with false by reflexivity.
  replace (is_pos_zero 10) with false by reflexivity.
  cbn [orb andb].
  destruct (s <? 10) eqn:E.
  - split; [apply signed_nonneg_le, Hs | apply F64Order.lt_le, E].
  - split; reflexivity.
Qed.

Lemma profit_term_signed_nonneg k :
  (k <= 1000)%nat ->
  signed_nonneg ((1 - of_nat k / numSimulations * 100 / 100) * 4).
Proof.
  intros Hk.
  assert (Hall : forallb
                   (fun k => signed_nonnegb
                               ((1 - of_nat k / numSimulations * 100 / 100) * 4))
                   (seq 0 1001) = true) by (vm_compute; reflexivity).
  rewrite forallb_forall in Hall.
  apply signed_nonnegb_sound, Hall, in_seq. lia.
Qed.

(** X3.  The risk score of an analysis is NaN exactly when its risk/reward ratio
    is; otherwise it lies between 0 and 10. *)
Theorem calculateRiskScore_range {H : Host}
        (options : list OptionLeg) (currentPrice : number) (g : rng) :
  let a := fst (calculateAnalysis options currentPrice g) in
  (is_nan (riskReward a) = true -> calculateRiskScore a = nan)
  /\ (is_nan (riskReward a) = false ->
      (0 <=? calculateRiskScore a) = true
      /\ (calculateRiskScore a <=? 10) = true).
Proof.
  intros a.
  destruct (analysis_fields options currentPrice g) as (_ & Hl & Hrr & Hpop & _).
  fold a in Hl, Hrr, Hpop.
  assert (Hpct : exists k, (k <= 1000)%nat
                           /\ probabilityOfProfit a
                              = of_nat k / numSimulations * 100).
  { eexists. split; [apply (profitable_count_le options currentPrice g) |].
    rewrite Hpop, (calculateProbabilityOfProfit_value options currentPrice g).
    reflexivity. }
  clear Hpop. clearbody a.
  generalize dependent (calculateMaxLoss options).
  generalize (calculateMaxProfit options).
  intros profit loss Hl Hrr. destruct Hpct as (k & Hk & Hpct).
  split.
  - intros Hnan. apply calculateRiskScore_nan, F64.is_nan_true, Hnan.
  - intros Hnum.
    assert (Hloss : is_nan loss = false).
    { destruct (is_nan loss) eqn:E; [| reflexivity].
      apply F64.is_nan_true in E.
      rewrite Hrr, E in Hnum. change (Math_abs nan) with nan in Hnum.
      rewrite div_nan_r in Hnum. discriminate Hnum. }
    unfold calculateRiskScore. rewrite Hl, Hpct.
    apply Math_min_10_bounds.
    apply add_signed_nonneg; [apply add_signed_nonneg |].
    + apply (mul_signed_nonneg _ 3 6755399441055744 (-51) eq_refl).
      apply (div_signed_nonneg _ 1000 8796093022208000 (-43) eq_refl).
      apply abs_signed_nonneg, Hloss.
    + apply profit_term_signed_nonneg, Hk.
    + apply (mul_signed_nonneg _ 2 4503599627370496 (-51) eq_refl).
      apply Math_max_0_signed_nonneg.
      apply (sub_from_finite_not_nan 2 false 4503599627370496 (-51) _ eq_refl).
      apply Math_min_number; [exact Hnum | reflexivity].
Qed.

(** ** What the analysis does not read *)

Lemma optionPayoff_with_volatility v opt price :
  optionPayoff (with_volatility v opt) price = optionPayoff opt price.
Proof. reflexivity. Qed.

Lemma totalPayoff_map (f : OptionLeg -> OptionLeg) options price :
  (forall o, optionPayoff (f o) price = optionPayoff o price
             /\ quantity (f o) = quantity o) ->
  totalPayoff (map f options) price = totalPayoff options price.
Proof.
  intros Hf. unfold totalPayoff. generalize 0.
  induction options as [| o options IH]; intros acc; cbn [map fold_left];
    [reflexivity |].
  destruct (Hf o) as [-> ->]. apply IH.
Qed.

Lemma totalPayoff_ignores_volatility (v : OptionLeg -> option number)
      options price :
  totalPayoff (map (fun o => with_volatility (v o) o) options) price
  = totalPayoff options price.
Proof. apply totalPayoff_map. intros o. split; reflexivity. Qed.

Lemma fold_left_ext_fun {A B} (f g : A -> B -> A) (l : list B) :
  (forall a b, f a b = g a b) -> forall a, fold_left f l a = fold_left g l a.
Proof.
  intros Hfg. induction l as [| b l IH]; intros a; cbn [fold_left];
    [reflexivity |].
  rewrite Hfg. apply IH.
Qed.

Section Ignored.
Context {H : Host}.
Variable v : OptionLeg -> option number.
Variable options : list OptionLeg.

Let options' := map (fun o => with_volatility (v o) o) options.

Lemma simulate_ignores_volatility currentPrice g :
  simulate options' currentPrice g = simulate options currentPrice g.
Proof.
  unfold simulate. apply fold_left_ext_fun. intros [c g0] _.
  unfold trial. destruct (Math_random g0) as [u g1].
  unfold options'. now rewrite totalPayoff_ignores_volatility.
Qed.

Lemma totalVegaAt_ignores_volatility spotPrice vol :
  totalVegaAt options' spotPrice vol = totalVegaAt options spotPrice vol.
Proof.
  unfold totalVegaAt, options'. generalize 0.
  induction options as [| o l IH]; intros acc; cbn [map fold_left];
    [reflexivity |].
  apply IH.
Qed.

(** X6.  Only the Greeks and the time-decay series read a leg's [volatility]:
    with any other volatilities on the legs, the breakeven prices, maximum
    profit and loss, probability of profit (on the same random draws),
    risk/reward and volatility-impact series are the same. *)
Theorem analysis_ignores_leg_volatility (currentPrice : number) (g : rng) :
  let a := fst (calculateAnalysis options currentPrice g) in
  let a' := fst (calculateAnalysis options' currentPrice g) in
  breakeven a' = breakeven a
  /\ maxProfit a' = maxProfit a
  /\ maxLoss a' = maxLoss a
  /\ probabilityOfProfit a' = probabilityOfProfit a
  /\ riskReward a' = riskReward a
  /\ volatilityImpact a' = volatilityImpact a
  /\ snd (calculateAnalysis options' currentPrice g)
     = snd (calculateAnalysis options currentPrice g).
Proof.
  assert (Hb : calculateBreakeven options' = calculateBreakeven options).
  { unfold calculateBreakeven. apply fold_left_ext_fun. intros acc price.
    unfold options'. now rewrite totalPayoff_ignores_volatility. }
  assert (Hp : calculateMaxProfit options' = calculateMaxProfit options).
  { unfold calculateMaxProfit. apply fold_left_ext_fun. intros acc price.
    unfold options'. now rewrite totalPayoff_ignores_volatility. }
  assert (Hl : calculateMaxLoss options' = calculateMaxLoss options).
  { unfold calculateMaxLoss. apply fold_left_ext_fun. intros acc price.
    unfold options'. now rewrite totalPayoff_ignores_volatility. }
  assert (Hpop : calculateProbabilityOfProfit options' currentPrice g
                 = calculateProbabilityOfProfit options currentPrice g).
  { unfold calculateProbabilityOfProfit.
    now rewrite simulate_ignores_volatility. }
  assert (Hv : calculateVolatilityImpact options' currentPrice
               = calculateVolatilityImpact options currentPrice).
  { unfold calculateVolatilityImpact. apply map_ext. intros vol.
    now rewrite totalVegaAt_ignores_volatility. }
  unfold calculateAnalysis. rewrite Hb, Hp, Hl, Hpop, Hv.
  destruct (calculateProbabilityOfProfit options currentPrice g) as [pop g'].
  cbn [fst snd breakeven maxProfit maxLoss probabilityOfProfit riskReward
       volatilityImpact].
  repeat split.
Qed.

End Ignored.

(** ** Symmetry of binary64 arithmetic *)

Module F64Opp.

Lemma SFeqv_refl u : SFeqv u u.
Proof. now left. Qed.

Lemma SFeqv_sym u v : SFeqv u v -> SFeqv v u.
Proof. intros [-> | [Hu Hv]]; [now left | now right]. Qed.

Lemma SFeqv_trans u v w : SFeqv u v -> SFeqv v w -> SFeqv u w.
Proof.
  intros [-> | [Hu Hv]] [-> | [Hv' Hw]]; try (now left); try (now right).
Qed.

Lemma SFopp_involutive u : SFopp (SFopp u) = u.
Proof. destruct u as [s | s | | s m e]; cbn; now rewrite ?negb_involutive. Qed.

Lemma SFopp_eqv u v : SFeqv u v -> SFeqv (SFopp u) (SFopp v).
Proof.
  intros [-> | [Hu Hv]]; [now left | right].
  destruct u, v; try contradiction. split; exact I.
Qed.

Lemma SFopposite_sym u v : SFopposite u v -> SFopposite v u.
Proof.
  unfold SFopposite. intros Huv.
  apply SFopp_eqv in Huv. rewrite SFopp_involutive in Huv.
  apply SFeqv_sym, Huv.
Qed.

Lemma binary_round_aux_opp s m e l :
  binary_round_aux prec emax (negb s) m e l
  = SFopp (binary_round_aux prec emax s m e l).
Proof.
  unfold binary_round_aux.
  destruct (shr_fexp prec emax m e l) as [mrs1 e1].
  destruct (shr_fexp prec emax _ e1 loc_Exact) as [mrs2 e2].
  destruct (shr_m mrs2); [reflexivity | | reflexivity].
  destruct (e2 <=? emax - prec)%Z; reflexivity.
Qed.

Lemma binary_round_opp s m e :
  binary_round prec emax (negb s) m e = SFopp (binary_round prec emax s m e).
Proof.
  unfold binary_round. destruct (shl_align m e _) as [mz ez].
  apply binary_round_aux_opp.
Qed.

Lemma binary_normalize_opp z e :
  SFeqv (binary_normalize prec emax (- z) e false)
        (SFopp (binary_normalize prec emax z e false)).
Proof.
  destruct z as [| p | p]; cbn [Z.opp binary_normalize].
  - right. split; exact I.
  - left. apply (binary_round_opp false).
  - left. rewrite (binary_round_opp false), SFopp_involutive. reflexivity.
Qed.

Lemma cond_Zopp_negb s z : cond_Zopp (negb s) z = (- cond_Zopp s z)%Z.
Proof. destruct s; cbn; lia. Qed.

Lemma SFadd_opp a x :
  SFeqv (SF64add (SFopp a) (SFopp x)) (SFopp (SF64add a x)).
Proof.
  unfold SF64add.
  destruct a as [sa | sa | | sa ma ea], x as [sx | sx | | sx mx ex];
    try (left; reflexivity);
    try (destruct sa, sx; cbn; (now left) || (right; split; exact I)).
  cbn [SFopp SFadd]. rewrite !cond_Zopp_negb.
  rewrite <- Z.opp_add_distr. apply binary_normalize_opp.
Qed.

Lemma SFadd_eqv_l a a' x : SFeqv a a' -> SFeqv (SF64add a x) (SF64add a' x).
Proof.
  intros [-> | [Ha Ha']]; [now left |].
  destruct a as [sa | | |], a' as [sa' | | |]; try contradiction.
  unfold SF64add. destruct x as [sx | sx | | sx mx ex];
    try (left; reflexivity).
  right. destruct sa, sa', sx; split; exact I.
Qed.

Lemma SFadd_eqv_r a x x' : SFeqv x x' -> SFeqv (SF64add a x) (SF64add a x').
Proof.
  intros [-> | [Hx Hx']]; [now left |].
  destruct x as [sx | | |], x' as [sx' | | |]; try contradiction.
  unfold SF64add. destruct a as [sa | sa | | sa ma ea];
    try (left; reflexivity).
  right. destruct sa, sx, sx'; split; exact I.
Qed.

Lemma SFadd_opposite a b x y :
  SFopposite a b -> SFopposite x y ->
  SFopposite (SF64add a x) (SF64add b y).
Proof.
  unfold SFopposite. intros Hab Hxy.
  eapply SFeqv_trans; [apply SFadd_eqv_l, Hab |].
  eapply SFeqv_trans; [apply SFadd_eqv_r, Hxy |].
  apply SFadd_opp.
Qed.

Lemma SFmul_opp_l x q : SF64mul (SFopp x) q = SFopp (SF64mul x q).
Proof.
  unfold SF64mul.
  destruct x as [sx | sx | | sx mx ex], q as [sq | sq | | sq mq eq];
    try reflexivity; try (destruct sx, sq; reflexivity).
  cbn [SFopp SFmul]. rewrite <- binary_round_aux_opp.
  now destruct sx, sq.
Qed.

Lemma SFmul_eqv_l a a' q : SFeqv a a' -> SFeqv (SF64mul a q) (SF64mul a' q).
Proof.
  intros [-> | [Ha Ha']]; [now left |].
  destruct a as [sa | | |], a' as [sa' | | |]; try contradiction.
  unfold SF64mul. destruct q as [sq | sq | | sq mq eq];
    try (left; reflexivity); right; split; exact I.
Qed.

Lemma SFmul_opposite x y q :
  SFopposite x y -> SFopposite (SF64mul x q) (SF64mul y q).
Proof.
  unfold SFopposite. intros Hxy.
  eapply SFeqv_trans; [apply SFmul_eqv_l, Hxy |].
  left. apply SFmul_opp_l.
Qed.

Lemma SFsub_swap x y : SFopposite (SF64sub x y) (SF64sub y x).
Proof.
  unfold SFopposite, SF64sub.
  destruct x as [sx | sx | | sx mx ex], y as [sy | sy | | sy my ey];
    try (left; reflexivity);
    try (destruct sx, sy; cbn; (now left) || (right; split; exact I));
    try (destruct sx; cbn; now left); try (destruct sy; cbn; now left).
  cbn [SFsub]. rewrite (Z.min_comm ey ex).
  match goal with
  | |- SFeqv (binary_normalize _ _ (?p - ?q)%Z _ _) _ =>
      replace (p - q)%Z with (- (q - p))%Z by lia
  end.
  apply binary_normalize_opp.
Qed.

Lemma SFabs_eqv u v : SFeqv u v -> SFabs u = SFabs v.
Proof.
  intros [-> | [Hu Hv]]; [reflexivity |].
  destruct u, v; try contradiction. reflexivity.
Qed.

Lemma SFabs_opp u : SFabs (SFopp u) = SFabs u.
Proof. destruct u; reflexivity. Qed.

Lemma SFcompare_eqv u u' v v' :
  SFeqv u u' -> SFeqv v v' -> SFcompare u v = SFcompare u' v'.
Proof.
  intros [-> | [Hu Hu']] [-> | [Hv Hv']]; try reflexivity.
  - destruct v, v'; try contradiction. destruct u'; reflexivity.
  - destruct u, u'; try contradiction. destruct v'; reflexivity.
  - destruct u, u', v, v'; try contradiction. reflexivity.
Qed.

Lemma SFcompare_opp u v : SFcompare (SFopp u) (SFopp v) = SFcompare v u.
Proof.
  destruct u as [su | su | | su mu eu], v as [sv | sv | | sv mv ev];
    cbn [SFopp]; rewrite ?F64Order.SFcompare_finite; try reflexivity;
    try (destruct su; try reflexivity; destruct sv; reflexivity);
    try (destruct sv; reflexivity).
  destruct su, sv; cbn [negb]; try reflexivity.
  - now rewrite (F64Order.cmp_em_antisym eu mu ev mv), CompOpp_involutive.
  - now rewrite (F64Order.cmp_em_antisym eu mu ev mv).
Qed.

End F64Opp.

(** ** A strategy and its mirror *)

Lemma is_zero_SF x : is_zero x = true <-> SFzero (Prim2SF x).
Proof.
  unfold is_zero. rewrite FloatAxioms.eqb_spec.
  replace (Prim2SF PrimFloat.zero) with (S754_zero false) by reflexivity.
  unfold SFeqb.
  destruct (Prim2SF x) as [s | s | | s m e]; cbn; split; intros Hx;
    try exact I; try reflexivity; try contradiction; try discriminate;
    destruct s; discriminate.
Qed.

Lemma opposite_SF x y :
  opposite x y <-> SFopposite (Prim2SF x) (Prim2SF y).
Proof.
  unfold opposite, SFopposite, SFeqv. split.
  - intros [-> | [Hx Hy]].
    + left. apply opp_spec.
    + right. apply is_zero_SF in Hx, Hy. split; [exact Hy |].
      destruct (Prim2SF x); try contradiction. exact I.
  - intros [Heq | [Hy Hx]].
    + left. apply Prim2SF_inj. now rewrite opp_spec.
    + right. split; apply is_zero_SF; [| exact Hy].
      destruct (Prim2SF x); try contradiction. exact I.
Qed.

Lemma opposite_0 : opposite 0 0.
Proof. right. split; reflexivity. Qed.

Lemma opposite_sym x y : opposite x y -> opposite y x.
Proof. rewrite !opposite_SF. apply F64Opp.SFopposite_sym. Qed.

Lemma opposite_add a b x y :
  opposite a b -> opposite x y -> opposite (a + x) (b + y).
Proof. rewrite !opposite_SF, !add_spec. apply F64Opp.SFadd_opposite. Qed.

Lemma opposite_mul x y q : opposite x y -> opposite (x * q) (y * q).
Proof. rewrite !opposite_SF, !mul_spec. apply F64Opp.SFmul_opposite. Qed.

Lemma opposite_sub_swap x y : opposite (x - y) (y - x).
Proof. rewrite opposite_SF, !sub_spec. apply F64Opp.SFsub_swap. Qed.

Lemma opposite_abs x y : opposite x y -> abs x = abs y.
Proof.
  rewrite opposite_SF. unfold SFopposite. intros Hxy.
  apply Prim2SF_inj. rewrite !abs_spec.
  rewrite (F64Opp.SFabs_eqv _ _ Hxy). symmetry. apply F64Opp.SFabs_opp.
Qed.

Lemma opposite_is_nan x y : opposite x y -> is_nan y = is_nan x.
Proof.
  intros [-> | [Hx Hy]].
  - destruct (is_nan x) eqn:E.
    + apply F64.is_nan_true in E. subst. reflexivity.
    + apply not_nan_SF. apply not_nan_SF in E. rewrite opp_spec.
      destruct (Prim2SF x); cbn; congruence.
  - unfold is_zero in Hx, Hy.
    assert (Hnx : is_nan x = false).
    { destruct (is_nan x) eqn:E; [| reflexivity].
      apply F64.is_nan_true in E. subst. discriminate Hx. }
    assert (Hny : is_nan y = false).
    { destruct (is_nan y) eqn:E; [| reflexivity].
      apply F64.is_nan_true in E. subst. discriminate Hy. }
    congruence.
Qed.

Lemma opposite_lt a a' x x' :
  opposite a a' -> opposite x x' -> (a' <? x') = (x <? a).
Proof.
  rewrite !opposite_SF, !ltb_spec. unfold SFopposite, SFltb.
  intros Ha Hx.
  rewrite (F64Opp.SFcompare_eqv _ _ _ _ Ha Hx), F64Opp.SFcompare_opp.
  reflexivity.
Qed.

Lemma opposite_is_zero x y : opposite x y -> is_zero y = is_zero x.
Proof.
  intros Hxy. pose proof Hxy as Hsf. apply opposite_SF in Hsf.
  destruct (is_zero x) eqn:Ex.
  - apply is_zero_SF. apply is_zero_SF in Ex.
    destruct Hsf as [-> | [Hy _]]; [| exact Hy].
    destruct (Prim2SF x); try contradiction. exact I.
  - destruct (is_zero y) eqn:Ey; [| reflexivity].
    apply is_zero_SF in Ey.
    assert (Hx : SFzero (Prim2SF x)).
    { destruct Hsf as [Heq | [_ Hx]].
      - rewrite Heq in Ey. destruct (Prim2SF x); try contradiction. exact I.
      - destruct (Prim2SF x); try contradiction. exact I. }
    apply is_zero_SF in Hx. congruence.
Qed.

Lemma pos_zero_is_zero x : is_pos_zero x = true -> is_zero x = true.
Proof. intros Hx. apply F64.leibniz_true in Hx. now subst. Qed.

Lemma neg_zero_is_zero x : is_neg_zero x = true -> is_zero x = true.
Proof. intros Hx. apply F64.leibniz_true in Hx. now subst. Qed.

Lemma zeros_opposite x y : is_zero x = true -> is_zero y = true -> opposite x y.
Proof. intros Hx Hy. right. now split. Qed.

(** The minimum of two numbers and the maximum of their opposites. *)
Lemma Math_min_max_opposite a a' x x' :
  opposite a a' -> opposite x x' ->
  opposite (Math_min a x) (Math_max a' x').
Proof.
  intros Ha Hx.
  destruct (is_zero a && is_zero x) eqn:Ez.
  - apply andb_true_iff in Ez as [Eza Ezx].
    assert (Eza' : is_zero a' = true) by now rewrite (opposite_is_zero a a').
    assert (Ezx' : is_zero x' = true) by now rewrite (opposite_is_zero x x').
    destruct (Math_min_either a x) as [-> | ->],
             (Math_max_either a' x') as [-> | ->];
      now apply zeros_opposite.
  - unfold Math_min, Math_max.
    rewrite (opposite_is_nan a a' Ha), (opposite_is_nan x x' Hx).
    destruct (is_nan a || is_nan x); [left; reflexivity |].
    assert (Hz1 : is_pos_zero a && is_neg_zero x = false).
    { destruct (is_pos_zero a) eqn:E1, (is_neg_zero x) eqn:E2; try reflexivity.
      rewrite (pos_zero_is_zero a E1), (neg_zero_is_zero x E2) in Ez.
      discriminate Ez. }
    assert (Hz2 : is_neg_zero a' && is_pos_zero x' = false).
    { destruct (is_neg_zero a') eqn:E1, (is_pos_zero x') eqn:E2;
        try reflexivity.
      apply neg_zero_is_zero in E1. apply pos_zero_is_zero in E2.
      rewrite (opposite_is_zero a a' Ha) in E1.
      rewrite (opposite_is_zero x x' Hx) in E2.
      rewrite E1, E2 in Ez. discriminate Ez. }
    rewrite Hz1, Hz2, (opposite_lt a a' x x' Ha Hx).
    destruct (x <? a); assumption.
Qed.

Lemma Math_max_min_opposite a a' x x' :
  opposite a a' -> opposite x x' ->
  opposite (Math_max a x) (Math_min a' x').
Proof.
  intros Ha Hx. apply opposite_sym.
  apply Math_min_max_opposite; apply opposite_sym; assumption.
Qed.

Lemma optionPayoff_mirror opt price :
  opposite (optionPayoff opt price) (optionPayoff (mirror opt) price).
Proof.
  unfold optionPayoff, mirror. cbn [type action strike premium].
  destruct (type opt), (action opt); cbn [flip]; apply opposite_sub_swap.
Qed.

Lemma totalPayoff_mirror options price :
  opposite (totalPayoff options price) (totalPayoff (map mirror options) price).
Proof.
  unfold totalPayoff.
  assert (Hgen : forall acc acc',
             opposite acc acc' ->
             opposite
               (fold_left (fun payoff opt =>
                             payoff + optionPayoff opt price * quantity opt)
                          options acc)
               (fold_left (fun payoff opt =>
                             payoff + optionPayoff opt price * quantity opt)
                          (map mirror options) acc')).
  { induction options as [| o l IH]; intros acc acc' Hacc; cbn [map fold_left];
      [exact Hacc |].
    apply IH. apply opposite_add; [exact Hacc |].
    apply (opposite_mul _ _ (quantity o)), optionPayoff_mirror. }
  apply Hgen, opposite_0.
Qed.

Lemma running_min_max_opposite (f f' : number -> number) prices :
  (forall price, opposite (f price) (f' price)) ->
  forall acc acc', opposite acc acc' ->
    opposite (fold_left (fun m price => Math_min m (f price)) prices acc)
             (fold_left (fun m price => Math_max m (f' price)) prices acc').
Proof.
  intros Hf. induction prices as [| p prices IH]; intros acc acc' Hacc;
    cbn [fold_left]; [exact Hacc |].
  apply IH, Math_min_max_opposite; [exact Hacc | apply Hf].
Qed.

Lemma running_max_min_opposite (f f' : number -> number) prices :
  (forall price, opposite (f price) (f' price)) ->
  forall acc acc', opposite acc acc' ->
    opposite (fold_left (fun m price => Math_max m (f price)) prices acc)
             (fold_left (fun m price => Math_min m (f' price)) prices acc').
Proof.
  intros Hf. induction prices as [| p prices IH]; intros acc acc' Hacc;
    cbn [fold_left]; [exact Hacc |].
  apply IH, Math_max_min_opposite; [exact Hacc | apply Hf].
Qed.

(** X4.  Taking the other side of every leg leaves the breakeven prices as they
    are and exchanges the extremes: the maximum profit of the mirrored
    strategy is the opposite of the maximum loss of the strategy, and its
    maximum loss the opposite of the maximum profit. *)
Theorem mirror_strategy (options : list OptionLeg) :
  calculateBreakeven (map mirror options) = calculateBreakeven options
  /\ opposite (calculateMaxLoss options) (calculateMaxProfit (map mirror options))
  /\ opposite (calculateMaxProfit options) (calculateMaxLoss (map mirror options)).
Proof.
  split; [| split].
  - unfold calculateBreakeven. apply fold_left_ext_fun. intros acc price.
    unfold Math_abs.
    now rewrite (opposite_abs _ _ (totalPayoff_mirror options price)).
  - unfold calculateMaxLoss, calculateMaxProfit.
    apply running_min_max_opposite; [| apply opposite_0].
    intros price. apply totalPayoff_mirror.
  - unfold calculateMaxLoss, calculateMaxProfit.
    apply running_max_min_opposite; [| apply opposite_0].
    intros price. apply totalPayoff_mirror.
Qed.

Module F64OppR.

Lemma SFmul_opp_r x q : SF64mul x (SFopp q) = SFopp (SF64mul x q).
Proof.
  unfold SF64mul.
  destruct x as [sx | sx | | sx mx ex], q as [sq | sq | | sq mq eq];
    try reflexivity; try (destruct sx, sq; reflexivity).
  cbn [SFopp SFmul]. rewrite <- F64Opp.binary_round_aux_opp.
  now destruct sx, sq.
Qed.

Lemma SFmul_eqv_r x q q' : SFeqv q q' -> SFeqv (SF64mul x q) (SF64mul x q').
Proof.
  intros [-> | [Hq Hq']]; [now left |].
  destruct q as [sq | | |], q' as [sq' | | |]; try contradiction.
  unfold SF64mul. destruct x as [sx | sx | | sx mx ex];
    try (left; reflexivity); right; split; exact I.
Qed.

Lemma SFmul_opposite_r x q q' :
  SFopposite q q' -> SFopposite (SF64mul x q) (SF64mul x q').
Proof.
  unfold SFopposite. intros Hq.
  eapply F64Opp.SFeqv_trans; [apply SFmul_eqv_r, Hq |].
  left. apply SFmul_opp_r.
Qed.

End F64OppR.

Lemma opposite_mul_r x q q' : opposite q q' -> opposite (x * q) (x * q').
Proof. rewrite !opposite_SF, !mul_spec. apply F64OppR.SFmul_opposite_r. Qed.

Lemma opposite_opp x : opposite x (- x).
Proof. now left. Qed.

Lemma multiplier_mirror opt :
  opposite (multiplier opt) (multiplier (mirror opt)).
Proof.
  unfold multiplier, mirror. cbn [action quantity].
  destruct (action opt); cbn [flip].
  - apply opposite_mul. change (-1) with (- 1). apply opposite_opp.
  - apply opposite_sym, opposite_mul. change (-1) with (- 1).
    apply opposite_opp.
Qed.

(** Sums of opposite terms over a strategy and its mirror. *)
Lemma sum_mirror (term term' : OptionLeg -> number) options :
  (forall o, opposite (term o) (term' (mirror o))) ->
  forall acc acc', opposite acc acc' ->
    opposite (fold_left add (map term options) acc)
             (fold_left add (map term' (map mirror options)) acc').
Proof.
  intros Hterm. induction options as [| o l IH]; intros acc acc' Hacc;
    cbn [map fold_left]; [exact Hacc |].
  apply IH, opposite_add; [exact Hacc | apply Hterm].
Qed.

Section MirrorGreeks.
Context {H : Host}.

(** X5.  The aggregate Greeks of the mirrored strategy are the opposites of the
    aggregate Greeks of the strategy. *)
Theorem mirror_greeks (options : list OptionLeg) (spotPrice : number) :
  let g := calculateGreeks options spotPrice in
  let g' := calculateGreeks (map mirror options) spotPrice in
  opposite (delta g) (delta g')
  /\ opposite (gamma g) (gamma g')
  /\ opposite (theta g) (theta g')
  /\ opposite (vega g) (vega g')
  /\ opposite (rho g) (rho g').
Proof.
  set (per := fun opt =>
                calculateBlackScholesGreeks
                  spotPrice (strike opt) (30 / 365) 0.05
                  (volatility_or_default opt) (type opt)).
  assert (Hsum : forall options,
             calculateGreeks options spotPrice
             = {| delta := fold_left add (map (fun o => delta (per o) * multiplier o) options) 0;
                  gamma := fold_left add (map (fun o => gamma (per o) * multiplier o) options) 0;
                  theta := fold_left add (map (fun o => theta (per o) * multiplier o) options) 0;
                  vega := fold_left add (map (fun o => vega (per o) * multiplier o) options) 0;
                  rho := fold_left add (map (fun o => rho (per o) * multiplier o) options) 0 |}).
  { intros l. unfold calculateGreeks.
    exact (totals_are_sums per multiplier l
             {| delta := 0; gamma := 0; theta := 0; vega := 0; rho := 0 |}). }
  intros g g'. unfold g, g'. rewrite !Hsum. cbn [delta gamma theta vega rho].
  repeat split; apply sum_mirror; try apply opposite_0;
    intros o; apply opposite_mul_r, multiplier_mirror.
Qed.

End MirrorGreeks.

(** ** The symmetries of the normal distribution *)

Lemma abs_opp x : Math_abs (- x) = Math_abs x.
Proof.
  unfold Math_abs. apply Prim2SF_inj.
  rewrite !abs_spec, opp_spec. apply F64Opp.SFabs_opp.
Qed.

Lemma opp_involutive x : - - x = x.
Proof.
  apply Prim2SF_inj. rewrite !opp_spec. apply F64Opp.SFopp_involutive.
Qed.

Lemma opp_mul_l x q : (- x) * q = - (x * q).
Proof.
  apply Prim2SF_inj. rewrite opp_spec, !mul_spec, opp_spec.
  apply F64Opp.SFmul_opp_l.
Qed.

Lemma opp_mul_r x q : x * (- q) = - (x * q).
Proof.
  apply Prim2SF_inj. rewrite opp_spec, !mul_spec, opp_spec.
  apply F64OppR.SFmul_opp_r.
Qed.

Lemma neg_one_mul y : -1 * y = - (1 * y).
Proof. exact (opp_mul_l 1 y). Qed.

Lemma one_mul_neg y : 1 * y = - (-1 * y).
Proof. rewrite neg_one_mul. symmetry. apply opp_involutive. Qed.

Lemma positive_sign x :
  (0 <? x) = true -> (0 <=? x) = true /\ (0 <=? - x) = false.
Proof.
  rewrite ltb_spec, !leb_spec, opp_spec, F64.SF_zero.
  destruct (Prim2SF x) as [[] | [] | | [] m e]; cbn; intros Hx;
    try discriminate; now split.
Qed.

Lemma negative_sign x :
  (x <? 0) = true -> (0 <=? x) = false /\ (0 <=? - x) = true.
Proof.
  rewrite ltb_spec, !leb_spec, opp_spec, F64.SF_zero.
  destruct (Prim2SF x) as [[] | [] | | [] m e]; cbn; intros Hx;
    try discriminate; now split.
Qed.

Section Symmetries.
Context {H : Host}.

(** X19.  [erf] is odd away from zero, where the sign is taken from [x >= 0] and
    both zeros count as positive; [normPDF] is even.  Both hold to the last
    bit, whatever [Math.exp] returns. *)
Theorem normal_symmetries (x : number) :
  ((x <? 0) = true \/ (0 <? x) = true -> erf (- x) = - erf x)
  /\ erf (-0) = erf 0
  /\ normPDF (- x) = normPDF x.
Proof.
  split; [| split].
  - intros Hx. unfold erf. cbv zeta. rewrite abs_opp.
    destruct Hx as [Hx | Hx].
    + destruct (negative_sign x Hx) as [-> ->].
      apply one_mul_neg.
    + destruct (positive_sign x Hx) as [-> ->].
      apply neg_one_mul.
  - unfold erf. cbv zeta. rewrite abs_opp. reflexivity.
  - unfold normPDF. rewrite !opp_mul_r, opp_mul_l, opp_involutive.
    reflexivity.
Qed.

End Symmetries.

(** ** Time decay against the Greeks *)

Lemma daysLoop_head : daysLoop = 30 :: tl daysLoop.
Proof. vm_compute. reflexivity. Qed.

Lemma daysLoop_tail_length : List.length (tl daysLoop) = 30%nat.
Proof. vm_compute. reflexivity. Qed.

Lemma theta_of_totals {H : Host} (per : OptionLeg -> Greeks)
      (w : OptionLeg -> number) (options : list OptionLeg) (tot : Greeks) :
  theta (fold_left
           (fun tot opt =>
              {| delta := delta tot + delta (per opt) * w opt;
                 gamma := gamma tot + gamma (per opt) * w opt;
                 theta := theta tot + theta (per opt) * w opt;
                 vega := vega tot + vega (per opt) * w opt;
                 rho := rho tot + rho (per opt) * w opt |})
           options tot)
  = fold_left add (map (fun o => theta (per o) * w o) options) (theta tot).
Proof. rewrite totals_are_sums. reflexivity. Qed.

(** X7.  The series starts at the aggregate theta: when every leg's volatility is
    usable, the first point of [calculateTimeDecay], for 0 days elapsed, is
    the [theta] of [calculateGreeks] at the same price, and 30 points
    follow. *)
Theorem timeDecay_starts_at_theta {H : Host} (currentPrice : number)
        (options : list OptionLeg) :
  Forall volatility_usable options ->
  exists rest,
    calculateTimeDecay currentPrice options
    = {| days := 0; td_theta := theta (calculateGreeks options currentPrice) |}
        :: rest
    /\ List.length rest = 30%nat.
Proof.
  intros Husable. unfold calculateTimeDecay.
  rewrite daysLoop_head. cbn [map]. eexists. split.
  - f_equal. change (30 - 30) with 0. f_equal.
    unfold calculateGreeks.
    rewrite (theta_of_totals
               (fun opt => calculateBlackScholesGreeks
                             currentPrice (strike opt) (30 / 365) 0.05
                             (volatility_or_default opt) (type opt))
               multiplier options).
    cbn [theta]. rewrite fold_left_add_map. f_equal.
    apply map_ext_in. intros o Ho.
    rewrite Forall_forall in Husable. specialize (Husable o Ho).
    unfold volatility_usable in Husable. unfold volatility_or_default, or_default.
    destruct (volatility o) as [v |]; [rewrite Husable |]; reflexivity.
  - rewrite length_map. apply daysLoop_tail_length.
Qed.

Lemma timeDecay_starts_at_theta_witness :
  exists rest,
    calculateTimeDecay (H := RefHost.host) 150 Samples.bullCallSpread
    = {| days := 0;
         td_theta := theta (calculateGreeks (H := RefHost.host)
                                            Samples.bullCallSpread 150) |}
        :: rest
    /\ List.length rest = 30%nat.
Proof.
  apply (timeDecay_starts_at_theta (H := RefHost.host)).
  repeat constructor.
Defined.

(** ** The strategy label *)

Lemma label_one_leg o :
  determineStrategyType (Some [o])
  = match action o, type o with
    | buy, call => "Long Call"
    | buy, put => "Long Put"
    | sell, call => "Short Call"
    | sell, put => "Short Put"
    end%string.
Proof.
  unfold determineStrategyType, count_type, count_action.
  cbn [List.length filter Nat.eqb].
  destruct (action o), (type o); reflexivity.
Qed.

Lemma label_two_legs o1 o2 :
  determineStrategyType (Some [o1; o2])
  = match type o1, type o2 with
    | call, call => "Call Spread"
    | put, put => "Put Spread"
    | _, _ => "Straddle/Strangle"
    end%string.
Proof.
  unfold determineStrategyType, count_type, count_action.
  cbn [List.length filter Nat.eqb].
  destruct (type o1), (type o2); reflexivity.
Qed.

Lemma label_other options :
  List.length options <> 1%nat -> List.length options <> 2%nat ->
  determineStrategyType (Some options) = "Complex Strategy"%string.
Proof.
  intros H1 H2. unfold determineStrategyType.
  destruct (Nat.eqb_spec (List.length options) 1); [contradiction |].
  destruct (Nat.eqb_spec (List.length options) 2); [contradiction |].
  reflexivity.
Qed.

(** X8.  [determineStrategyType] by number of legs: a single leg is named after
    its action and type, two legs after their types alone, and any other
    number of legs, none included, is a "Complex Strategy"; only a missing
    strategy is "Unknown". *)
Theorem determineStrategyType_cases :
  determineStrategyType None = "Unknown"%string
  /\ (forall o,
         determineStrategyType (Some [o])
         = match action o, type o with
           | buy, call => "Long Call"
           | buy, put => "Long Put"
           | sell, call => "Short Call"
           | sell, put => "Short Put"
           end%string)
  /\ (forall o1 o2,
         determineStrategyType (Some [o1; o2])
         = match type o1, type o2 with
           | call, call => "Call Spread"
           | put, put => "Put Spread"
           | _, _ => "Straddle/Strangle"
           end%string)
  /\ (forall options,
         List.length options <> 1%nat -> List.length options <> 2%nat ->
         determineStrategyType (Some options) = "Complex Strategy"%string).
Proof.
  split; [reflexivity |]. split; [exact label_one_leg |].
  split; [exact label_two_legs | exact label_other].
Qed.

(** X10.  The component shows a strategy label exactly when the strategy has
    legs and the selected tab is the Risk tab; on the tab selected first,
    the Overview, it shows none.  The label shown is one of the eight names
    of a strategy with legs, never "Unknown", and "Complex Strategy" only
    from three legs on. *)
Theorem shown_label {H : Host} (strategy : Strategy) (selectedTab : Tab)
        (st : State) :
  match strategy, selectedTab with
  | Some (o :: rest), tab_risk =>
      exists label,
        shownStrategyType (render strategy selectedTab st) = Some label
        /\ label <> "Unknown"%string
        /\ In label ["Long Call"; "Long Put"; "Short Call"; "Short Put";
                     "Call Spread"; "Put Spread"; "Straddle/Strangle";
                     "Complex Strategy"]%string
        /\ (label = "Complex Strategy"%string <->
            (3 <= List.length (o :: rest))%nat)
  | _, _ => shownStrategyType (render strategy selectedTab st) = None
  end
  /\ shownStrategyType (render strategy initialTab st) = None.
Proof.
  split; [| now destruct strategy as [[| o rest] |]].
  destruct strategy as [[| o [| o2 [| o3 rest]]] |], selectedTab;
    try reflexivity;
    eexists; (split; [reflexivity |]).
  - rewrite label_one_leg. cbn [List.length].
    destruct (action o), (type o);
      (split; [discriminate |]); (split; [cbn; tauto |]);
      (split; [discriminate | lia]).
  - rewrite label_two_legs. cbn [List.length].
    destruct (type o), (type o2);
      (split; [discriminate |]); (split; [cbn; tauto |]);
      (split; [discriminate | lia]).
  - rewrite label_other by (cbn [List.length]; lia). cbn [List.length].
    split; [discriminate |]. split; [cbn; tauto |].
    split; [lia | reflexivity].
Qed.

Lemma count_type_perm t l l' :
  Permutation l l' -> count_type t l = count_type t l'.
Proof.
  unfold count_type. induction 1 as [| x l l' _ IH | x y l | l l' l'' _ IH1 _ IH2];
    cbn [filter]; try reflexivity.
  - destruct (match type x, t with call, call | put, put => true | _, _ => false end);
      cbn [List.length]; congruence.
  - destruct (match type x, t with call, call | put, put => true | _, _ => false end),
             (match type y, t with call, call | put, put => true | _, _ => false end);
      reflexivity.
  - congruence.
Qed.

Lemma count_action_perm a l l' :
  Permutation l l' -> count_action a l = count_action a l'.
Proof.
  unfold count_action. induction 1 as [| x l l' _ IH | x y l | l l' l'' _ IH1 _ IH2];
    cbn [filter]; try reflexivity.
  - destruct (match action x, a with buy, buy | sell, sell => true | _, _ => false end);
      cbn [List.length]; congruence.
  - destruct (match action x, a with buy, buy | sell, sell => true | _, _ => false end),
             (match action y, a with buy, buy | sell, sell => true | _, _ => false end);
      reflexivity.
  - congruence.
Qed.

Lemma count_type_map f t l :
  (forall o, type (f o) = type o) -> count_type t (map f l) = count_type t l.
Proof.
  intros Hf. unfold count_type. induction l as [| x l IH]; cbn [map filter];
    [reflexivity |].
  rewrite Hf.
  destruct (match type x, t with call, call | put, put => true | _, _ => false end);
    cbn [List.length]; congruence.
Qed.

Lemma count_action_map f a l :
  (forall o, action (f o) = action o) ->
  count_action a (map f l) = count_action a l.
Proof.
  intros Hf. unfold count_action. induction l as [| x l IH]; cbn [map filter];
    [reflexivity |].
  rewrite Hf.
  destruct (match action x, a with buy, buy | sell, sell => true | _, _ => false end);
    cbn [List.length]; congruence.
Qed.

(** X9.  The label depends on the legs only through how many there are of each
    type and action: reordering the legs, or changing their strikes,
    quantities, premiums and volatilities, leaves it unchanged. *)
Theorem determineStrategyType_invariant (options options' : list OptionLeg)
        (f : OptionLeg -> OptionLeg) :
  (Permutation options options' ->
   determineStrategyType (Some options) = determineStrategyType (Some options'))
  /\ ((forall o, type (f o) = type o /\ action (f o) = action o) ->
      determineStrategyType (Some (map f options))
      = determineStrategyType (Some options)).
Proof.
  split.
  - intros Hp. unfold determineStrategyType.
    rewrite (Permutation_length Hp),
            (count_type_perm call _ _ Hp), (count_type_perm put _ _ Hp),
            (count_action_perm buy _ _ Hp).
    reflexivity.
  - intros Hf. unfold determineStrategyType.
    rewrite length_map, !count_type_map, count_action_map
      by (intros o; apply Hf).
    reflexivity.
Qed.

Lemma determineStrategyType_invariant_witness :
  determineStrategyType (Some (rev Samples.bullCallSpread))
  = determineStrategyType (Some Samples.bullCallSpread).
Proof.
  symmetry.
  apply (proj1 (determineStrategyType_invariant
                  Samples.bullCallSpread (rev Samples.bullCallSpread)
                  (fun o => o))).
  apply Permutation_rev.
Defined.

(** ** Submitting the leg form *)

Section SubmitFacts.
Context {C : Form.Coercions}.

(** X11.  While every field still holds a Number, submitting yields a leg exactly
    when strike, quantity and premium are positive and the volatility is
    positive and at most 5; a NaN in any field is refused. *)
Theorem handleSubmit_numbers K q p v t a :
  (exists leg,
      Form.handleSubmit
        {| Form.fd_strike := Form.Num K; Form.fd_type := t;
           Form.fd_action := a; Form.fd_quantity := Form.Num q;
           Form.fd_premium := Form.Num p; Form.fd_volatility := Form.Num v |}
      = Some leg)
  <-> ((0 <? K) = true /\ (0 <? q) = true /\ (0 <? p) = true
       /\ (0 <? v) = true /\ (v <=? 5) = true).
Proof.
  set (fd := {| Form.fd_strike := Form.Num K; Form.fd_type := t;
                Form.fd_action := a; Form.fd_quantity := Form.Num q;
                Form.fd_premium := Form.Num p;
                Form.fd_volatility := Form.Num v |}).
  pose proof (validateForm_numbers K q p v t a) as Hv. fold fd in Hv.
  destruct (handleSubmit_atomic fd) as [Hno Hyes].
  split.
  - intros [leg Hleg].
    destruct (Form.validateForm fd) eqn:E.
    + symmetry in Hv.
      apply andb_true_iff in Hv as [Hv Hvol].
      apply andb_true_iff in Hvol as [Hv0 Hv5].
      apply andb_true_iff in Hv as [Hv Hp].
      apply andb_true_iff in Hv as [HK Hq].
      repeat split; assumption.
    + rewrite (Hno eq_refl) in Hleg. discriminate Hleg.
  - intros (HK & Hq & Hp & Hv0 & Hv5).
    rewrite HK, Hq, Hp, Hv0, Hv5 in Hv. eexists. apply Hyes, Hv.
Qed.

(** X12.  A typed text that is not a number passes every check: the text is not
    empty, and its Number, NaN, is neither below nor above anything.  With
    such texts for strike, quantity and volatility and a positive premium
    the form is valid, and the leg submitted carries whatever [parseFloat]
    and [parseInt] make of the texts. *)
Theorem validateForm_accepts_text sK sq sv p t a :
  sK <> EmptyString -> sq <> EmptyString -> sv <> EmptyString ->
  Form.StringToNumber sK = nan -> Form.StringToNumber sq = nan ->
  Form.StringToNumber sv = nan ->
  (0 <? p) = true ->
  let formData :=
    {| Form.fd_strike := Form.Str sK; Form.fd_type := t; Form.fd_action := a;
       Form.fd_quantity := Form.Str sq; Form.fd_premium := Form.Num p;
       Form.fd_volatility := Form.Str sv |} in
  Form.validateForm formData = true
  /\ Form.handleSubmit formData
     = Some {| strike := Form.parseFloat (Form.Str sK); type := t;
               action := a; quantity := Form.parseInt (Form.Str sq);
               premium := Form.parseFloat (Form.Num p);
               volatility := Some (Form.parseFloat (Form.Str sv)) |}.
Proof.
  intros HK Hq Hv NK Nq Nv Hp formData.
  assert (Hvalid : Form.validateForm formData = true).
  { unfold formData, Form.validateForm, Form.newErrors, Form.no_errors.
    cbn [Form.fd_strike Form.fd_quantity Form.fd_premium Form.fd_volatility
         Form.err_strike Form.err_quantity Form.err_premium
         Form.err_volatility Form.falsy Form.ToNumber].
    rewrite NK, Nq, Nv.
    apply String.eqb_neq in HK, Hq, Hv. rewrite HK, Hq, Hv.
    rewrite <- F64.truthy_not_lt_0 in Hp.
    apply andb_true_iff in Hp as [Ht Hn]. apply negb_true_iff in Hn.
    rewrite Ht, Hn. reflexivity. }
  split; [exact Hvalid |].
  apply (proj2 (handleSubmit_atomic formData) Hvalid).
Qed.

End SubmitFacts.

Lemma validateForm_accepts_text_witness :
  Form.validateForm (C := RefCoercions.coercions)
    {| Form.fd_strike := Form.Str "abc"; Form.fd_type := call;
       Form.fd_action := buy; Form.fd_quantity := Form.Str "x";
       Form.fd_premium := Form.Num 5; Form.fd_volatility := Form.Str "?" |}
  = true.
Proof.
  apply (validateForm_accepts_text (C := RefCoercions.coercions)
           "abc" "x" "?" 5 call buy);
    (discriminate || reflexivity).
Defined.

Lemma handleSubmit_numbers_witness :
  exists leg,
    Form.handleSubmit (C := RefCoercions.coercions)
      {| Form.fd_strike := Form.Num 150; Form.fd_type := call;
         Form.fd_action := buy; Form.fd_quantity := Form.Num 1;
         Form.fd_premium := Form.Num 5; Form.fd_volatility := Form.Num 0.25 |}
    = Some leg.
Proof.
  apply (proj2 (handleSubmit_numbers (C := RefCoercions.coercions)
                  150 1 5 0.25 call buy)).
  repeat split.
Defined.

(** ** The pickers *)

Section PickerFacts.
Import Form Pickers.
Variable row : ChainRow.
Variable quotes : RowQuotes.

(** X14.  After any picks of the type, one more pick sets the type picked but the
    premium quoted for the type selected before it (and the action): the
    premium shown lags one pick behind, and only picking the same type again
    brings the matching quote. *)
Theorem premium_lags_type_pick (formData : FormData)
        (picks : list OptionType) (value : OptionType) :
  let before := fold_left (onTypeChange row quotes) picks formData in
  let after := onTypeChange row quotes before value in
  fd_type after = value
  /\ fd_action after = fd_action formData
  /\ fd_premium after = Num (quote_or (newPremium row quotes before) 0)
  /\ fd_premium (onTypeChange row quotes after value)
     = Num (quote_or (newPremium row quotes after) 0)
  /\ fd_strike after = fd_strike formData
  /\ fd_quantity after = fd_quantity formData
  /\ fd_volatility after = fd_volatility formData.
Proof.
  intros before after.
  assert (Hkeep : fd_action before = fd_action formData
                  /\ fd_strike before = fd_strike formData
                  /\ fd_quantity before = fd_quantity formData
                  /\ fd_volatility before = fd_volatility formData).
  { unfold before. clear. revert formData.
    induction picks as [| p ps IH]; intros formData; cbn [fold_left].
    - repeat split.
    - destruct (IH (onTypeChange row quotes formData p)) as (Ha & Hs & Hq & Hv).
      rewrite Ha, Hs, Hq, Hv. repeat split. }
  destruct Hkeep as (Ha & Hs & Hq & Hv).
  unfold after. cbn. rewrite Ha, Hs, Hq, Hv. repeat split.
Qed.

End PickerFacts.

(** ** A session with the form *)

Section SessionFacts.
Import Form Pickers.
Variable row : ChainRow.
Variable quotes : RowQuotes.

Lemma apply_event_premium formData ev :
  summaryRenders formData = true ->
  summaryRenders (apply_event row quotes formData ev) = negb (types_premium ev).
Proof.
  intros Hr. destruct ev as [[| | |] value | value | value]; cbn;
    try reflexivity; exact Hr.
Qed.

(** X13.  From a form whose summary renders, the renders succeed through a
    sequence of events exactly when none of them types into the premium
    field; the first such event makes the render throw.  While the renders
    succeed the premium field holds a Number. *)
Theorem typing_premium_breaks_render (formData : FormData)
        (events : list Event) :
  summaryRenders formData = true ->
  (run row quotes formData events = None
   <-> existsb types_premium events = true)
  /\ (forall final, run row quotes formData events = Some final ->
                    exists x, fd_premium final = Num x).
Proof.
  revert formData.
  induction events as [| ev rest IH]; intros formData Hr; cbn [run existsb].
  - split; [split; discriminate |].
    intros final [= <-]. unfold summaryRenders in Hr.
    destruct (fd_premium formData) as [x | s]; [now exists x | discriminate].
  - rewrite (apply_event_premium formData ev Hr).
    destruct (types_premium ev) eqn:Hev; cbn [negb orb].
    + split; [split; reflexivity | discriminate].
    + apply IH. rewrite (apply_event_premium formData ev Hr), Hev. reflexivity.
Qed.

End SessionFacts.

Lemma typing_premium_breaks_render_witness :
  Pickers.run
    {| Form.row_strike := 150; Form.callBid := Some 4.9; Form.iv := Some 0.25 |}
    {| Pickers.callAsk := Some 5.1; Pickers.putBid := Some 3.9;
       Pickers.putAsk := Some 4.1 |}
    (Form.initialFormData
       {| Form.row_strike := 150; Form.callBid := Some 4.9;
          Form.iv := Some 0.25 |})
    [Pickers.PickType put; Pickers.TypeText Pickers.premiumField "4"]
  = None.
Proof.
  apply typing_premium_breaks_render; reflexivity.
Defined.

(** ** Tapping an option of the chain *)

Section TapFacts.
Import Screen.

Lemma findIndex_from_none {A} (f : A -> bool) l : forall i,
  (forall x, In x l -> f x = false) -> findIndex_from f i l = (-1)%Z.
Proof.
  induction l as [| x l IH]; intros i Hf; cbn [findIndex_from];
    [reflexivity |].
  rewrite (Hf x (or_introl eq_refl)). apply IH.
  intros y Hy. apply Hf. now right.
Qed.

Lemma findIndex_from_first {A} (f : A -> bool) l1 x l2 : forall i,
  (forall y, In y l1 -> f y = false) -> f x = true ->
  findIndex_from f i (l1 ++ x :: l2) = (i + Z.of_nat (List.length l1))%Z.
Proof.
  induction l1 as [| y l1 IH]; intros i Hf Hx; cbn [app findIndex_from].
  - rewrite Hx. cbn [List.length]. lia.
  - rewrite (Hf y (or_introl eq_refl)).
    rewrite IH; [cbn [List.length]; lia | | exact Hx].
    intros z Hz. apply Hf. now right.
Qed.

Lemma filter_index_from_all {A} (keep : Z -> bool) (l : list A) : forall i,
  (forall j, (i <= j)%Z -> keep j = true) -> filter_index_from keep i l = l.
Proof.
  induction l as [| x l IH]; intros i Hkeep; cbn [filter_index_from];
    [reflexivity |].
  rewrite (Hkeep i) by lia. f_equal. apply IH.
  intros j Hj. apply Hkeep. lia.
Qed.

Lemma filter_index_from_drop {A} (l1 : list A) x l2 : forall i,
  filter_index_from
    (fun index => negb (index =? i + Z.of_nat (List.length l1))%Z) i
    (l1 ++ x :: l2)
  = l1 ++ l2.
Proof.
  induction l1 as [| y l1 IH]; intros i; cbn [app filter_index_from].
  - cbn [List.length]. replace (i + Z.of_nat 0)%Z with i by lia.
    rewrite Z.eqb_refl. cbn [negb].
    apply filter_index_from_all. intros j Hj.
    apply negb_true_iff, Z.eqb_neq. lia.
  - assert (Hne : (i =? i + Z.of_nat (List.length (y :: l1)))%Z = false)
      by (apply Z.eqb_neq; cbn [List.length]; lia).
    rewrite Hne. cbn [negb]. f_equal.
    replace (i + Z.of_nat (List.length (y :: l1)))%Z
      with (i + 1 + Z.of_nat (List.length l1))%Z
      by (cbn [List.length]; lia).
    apply IH.
Qed.

(** Every selection either has no leg like the option, or splits at the
    first leg like it. *)
Lemma first_match {A} (f : A -> bool) (l : list A) :
  (forall x, In x l -> f x = false)
  \/ exists l1 x l2, l = l1 ++ x :: l2
                     /\ (forall y, In y l1 -> f y = false) /\ f x = true.
Proof.
  induction l as [| x l IH].
  - left. intros x [].
  - destruct (f x) eqn:Hx.
    + right. exists [], x, l. repeat split; [intros y [] | exact Hx].
    + destruct IH as [Hnone | (l1 & z & l2 & -> & Hl1 & Hz)].
      * left. intros y [<- | Hy]; auto.
      * right. exists (x :: l1), z, l2. repeat split; [| exact Hz].
        intros y [<- | Hy]; auto.
Qed.

Lemma tap_without_match selectedOptions option :
  (forall leg, In leg selectedOptions -> same_option option leg = false) ->
  handleOptionSelect selectedOptions option = FormOpened option.
Proof.
  intros Hno. unfold handleOptionSelect, findIndex.
  rewrite findIndex_from_none by exact Hno. reflexivity.
Qed.

Lemma tap_first_match before leg after option :
  (forall other, In other before -> same_option option other = false) ->
  same_option option leg = true ->
  handleOptionSelect (before ++ leg :: after) option
  = Deselected (before ++ after).
Proof.
  intros Hbefore Hleg. unfold handleOptionSelect, findIndex.
  rewrite findIndex_from_first by assumption.
  replace (0 <=? 0 + Z.of_nat (List.length before))%Z with true
    by (symmetry; apply Z.leb_le; lia).
  rewrite filter_index_from_drop. reflexivity.
Qed.

(** X15.  A tap removes the first selected leg with the option's strike and type,
    keeping the others in order, and opens the form when there is none.  An
    option that carries no [type], or whose strike is NaN, never deselects
    anything: the form is opened whatever is selected. *)
Theorem handleOptionSelect_spec (selectedOptions : list OptionLeg)
        (option : ChainOption) :
  ((forall leg, In leg selectedOptions -> same_option option leg = false) ->
   handleOptionSelect selectedOptions option = FormOpened option)
  /\ (forall before leg after,
         selectedOptions = before ++ leg :: after ->
         (forall other, In other before -> same_option option other = false) ->
         same_option option leg = true ->
         handleOptionSelect selectedOptions option
         = Deselected (before ++ after))
  /\ (opt_type option = None ->
      handleOptionSelect selectedOptions option = FormOpened option)
  /\ (is_nan (opt_strike option) = true ->
      handleOptionSelect selectedOptions option = FormOpened option)
  /\ (handleOptionSelect selectedOptions option = FormOpened option
      \/ exists rest,
           handleOptionSelect selectedOptions option = Deselected rest
           /\ S (List.length rest) = List.length selectedOptions).
Proof.
  pose proof (tap_without_match selectedOptions option) as Hnone.
  split; [exact Hnone |].
  split; [intros before leg after ->; apply tap_first_match |].
  split; [| split].
  - intros Htype. apply Hnone. intros leg _.
    unfold same_option. rewrite Htype. apply andb_false_r.
  - intros Hnan. apply Hnone. intros leg _.
    unfold same_option. apply F64.is_nan_true in Hnan. rewrite Hnan.
    replace (strike leg =? nan) with false; [reflexivity |].
    symmetry. rewrite FloatAxioms.eqb_spec, F64.SF_nan.
    unfold SFeqb. now destruct (Prim2SF (strike leg)).
  - destruct (first_match (same_option option) selectedOptions)
      as [Hno | (before & leg & after & Heq & Hbefore & Hleg)].
    + left. apply Hnone, Hno.
    + right. exists (before ++ after).
      split; [rewrite Heq; apply tap_first_match; assumption |].
      rewrite Heq, !length_app. cbn [List.length]. lia.
Qed.

(** X16.  Confirming a leg and then tapping an option with its strike and type
    gives back the selection as it was, provided no leg of it was already
    like the option. *)
Theorem confirm_then_tap (selectedOptions : list OptionLeg)
        (strategyOption : OptionLeg) (option : ChainOption) :
  (forall leg, In leg selectedOptions -> same_option option leg = false) ->
  same_option option strategyOption = true ->
  handleOptionSelect (onConfirm selectedOptions strategyOption) option
  = Deselected selectedOptions.
Proof.
  intros Hno Hleg. unfold onConfirm.
  rewrite (tap_first_match selectedOptions strategyOption [] option Hno Hleg).
  now rewrite app_nil_r.
Qed.

End TapFacts.

Lemma confirm_then_tap_witness :
  Screen.handleOptionSelect
    (Screen.onConfirm Samples.longCall (Samples.leg 160 call sell 1 2))
    {| Screen.opt_strike := 160; Screen.opt_type := Some call |}
  = Screen.Deselected Samples.longCall.
Proof.
  apply confirm_then_tap; [| reflexivity].
  intros leg [<- | []]. reflexivity.
Defined.

(** ** The payoff diagram of the screen *)

Section ScreenFacts.
Import Screen.
Context {F : NumberFormat}.

Lemma calculatePayoff_length selectedOptions currentPrice :
  List.length (calculatePayoff selectedOptions currentPrice) = 51%nat.
Proof.
  unfold calculatePayoff, priceRange. now rewrite !length_map, length_seq.
Qed.

Lemma calculatePayoff_shown selectedOptions currentPrice st :
  st_payoffData st = calculatePayoff selectedOptions currentPrice ->
  diagramShown st = true.
Proof.
  intros Hdata. unfold diagramShown. rewrite Hdata.
  pose proof (calculatePayoff_length selectedOptions currentPrice) as Hlen.
  now destruct (calculatePayoff selectedOptions currentPrice).
Qed.

(** A tap opens the form or takes one leg out of the selection. *)
Lemma tap_cases selectedOptions option :
  handleOptionSelect selectedOptions option = FormOpened option
  \/ exists before leg after,
       selectedOptions = before ++ leg :: after
       /\ handleOptionSelect selectedOptions option
          = Deselected (before ++ after).
Proof.
  destruct (first_match (same_option option) selectedOptions)
    as [Hno | (before & leg & after & Heq & Hbefore & Hleg)].
  - left. now apply tap_without_match.
  - right. exists before, leg, after. split; [exact Heq |].
    rewrite Heq. now apply tap_first_match.
Qed.

Lemma payoffEffect_legs st :
  st_selectedOptions st <> [] ->
  payoffEffect st
  = setPayoffData
      (calculatePayoff (st_selectedOptions st) (st_currentPrice st)) st.
Proof.
  unfold payoffEffect. now destruct (st_selectedOptions st).
Qed.

Lemma payoffEffect_no_legs st :
  st_selectedOptions st = [] -> payoffEffect st = st.
Proof.
  unfold payoffEffect. now intros ->.
Qed.

Ltac simpl_state :=
  cbn [st_selectedOptions st_payoffData st_currentPrice
       setSelectedOptions setPayoffData setCurrentPrice].

(** The two facts every event preserves. *)
Lemma screen_step_preserves st ev :
  (st_selectedOptions st <> [] ->
   st_payoffData st
   = calculatePayoff (st_selectedOptions st) (st_currentPrice st)) ->
  (st_selectedOptions st = [] ->
   st_payoffData st = []
   \/ exists leg price, st_payoffData st = calculatePayoff [leg] price) ->
  let st' := screen_step st ev in
  (st_selectedOptions st' <> [] ->
   st_payoffData st'
   = calculatePayoff (st_selectedOptions st') (st_currentPrice st'))
  /\ (st_selectedOptions st' = [] ->
      st_payoffData st' = []
      \/ exists leg price, st_payoffData st' = calculatePayoff [leg] price).
Proof.
  intros Hsync Hstale.
  assert (Hrecomputed :
            forall s, st_selectedOptions s <> [] ->
                      (st_selectedOptions (payoffEffect s) <> [] ->
                       st_payoffData (payoffEffect s)
                       = calculatePayoff
                           (st_selectedOptions (payoffEffect s))
                           (st_currentPrice (payoffEffect s)))
                      /\ (st_selectedOptions (payoffEffect s) = [] ->
                          st_payoffData (payoffEffect s) = []
                          \/ exists leg price,
                               st_payoffData (payoffEffect s)
                               = calculatePayoff [leg] price)).
  { intros s Hs. rewrite (payoffEffect_legs s Hs). simpl_state.
    split; [reflexivity | intros E; contradiction]. }
  destruct ev as [option | strategyOption | currentPrice]; cbn [screen_step].
  - destruct (tap_cases (st_selectedOptions st) option)
      as [-> | (before & leg & after & Heq & ->)]; [now split |].
    destruct (before ++ after) as [| o rest] eqn:Hrest.
    + rewrite payoffEffect_no_legs by reflexivity. simpl_state.
      split; [intros E; contradiction | intros _].
      right. exists leg, (st_currentPrice st).
      apply app_eq_nil in Hrest. destruct Hrest as [-> ->].
      cbn [app] in Heq. rewrite <- Heq. apply Hsync.
      rewrite Heq. discriminate.
    + apply Hrecomputed. simpl_state. discriminate.
  - apply Hrecomputed. simpl_state. unfold onConfirm.
    intros E. apply app_eq_nil in E. destruct E as [_ E]. discriminate.
  - destruct (st_selectedOptions st) as [| o rest] eqn:Hsel.
    + rewrite payoffEffect_no_legs by (simpl_state; exact Hsel). simpl_state.
      split; [intros E; contradiction | intros _; now apply Hstale].
    + apply Hrecomputed. simpl_state. rewrite Hsel. discriminate.
Qed.

(** X17.  While legs are selected the diagram shows their payoff at the current
    price.  Without legs the diagram is not cleared: it is either still
    empty, or the payoff of a single leg, the one deselected last, at the
    price of some earlier moment. *)
Theorem payoffData_follows_selection (events : list ScreenEvent) :
  let st := fold_left screen_step events initialState in
  (st_selectedOptions st <> [] ->
   st_payoffData st
   = calculatePayoff (st_selectedOptions st) (st_currentPrice st)
   /\ diagramShown st = true)
  /\ (st_selectedOptions st = [] ->
      st_payoffData st = []
      \/ exists leg price, st_payoffData st = calculatePayoff [leg] price).
Proof.
  cbn zeta.
  assert (Hinv :
            (st_selectedOptions (fold_left screen_step events initialState)
             <> [] ->
             st_payoffData (fold_left screen_step events initialState)
             = calculatePayoff
                 (st_selectedOptions
                    (fold_left screen_step events initialState))
                 (st_currentPrice
                    (fold_left screen_step events initialState)))
            /\ (st_selectedOptions
                  (fold_left screen_step events initialState) = [] ->
                st_payoffData (fold_left screen_step events initialState)
                = []
                \/ exists leg price,
                     st_payoffData
                       (fold_left screen_step events initialState)
                     = calculatePayoff [leg] price)).
  { induction events as [| ev events IH] using rev_ind.
    - cbn. split; [intros E; contradiction | now left].
    - rewrite fold_left_app. cbn [fold_left].
      destruct IH as [Hsync Hstale].
      exact (screen_step_preserves _ ev Hsync Hstale). }
  destruct Hinv as [Hsync Hstale]. split; [| exact Hstale].
  intros Hsel. split; [now apply Hsync |].
  eapply calculatePayoff_shown. now apply Hsync.
Qed.

(** X18.  Deselecting the only leg leaves its diagram on the screen: after a leg
    is confirmed into an empty selection and an option with its strike and
    type is tapped, nothing is selected, and the diagram still shows the
    payoff of that leg. *)
Theorem payoff_diagram_outlives_selection (st : ScreenState)
        (strategyOption : OptionLeg) (option : ChainOption) :
  st_selectedOptions st = [] ->
  same_option option strategyOption = true ->
  let st' := screen_step (screen_step st (ConfirmLeg strategyOption))
                         (TapOption option) in
  st_selectedOptions st' = []
  /\ st_payoffData st' = calculatePayoff [strategyOption] (st_currentPrice st)
  /\ diagramShown st' = true.
Proof.
  intros Hsel Hsame. cbn zeta. cbn [screen_step].
  rewrite Hsel. unfold onConfirm. cbn [app].
  rewrite payoffEffect_legs by (cbn; discriminate).
  cbn [st_selectedOptions setSelectedOptions setPayoffData st_currentPrice].
  pose proof (tap_first_match [] strategyOption [] option
                (fun other (Hin : In other []) => match Hin with end) Hsame)
    as Htap.
  cbn [app] in Htap. rewrite Htap.
  rewrite payoffEffect_no_legs by reflexivity.
  cbn [st_selectedOptions setSelectedOptions setPayoffData st_payoffData].
  split; [reflexivity | split; [reflexivity |]].
  eapply calculatePayoff_shown. cbn [st_payoffData]. reflexivity.
Qed.

End ScreenFacts.

Lemma payoff_diagram_outlives_selection_witness :
  let st' :=
    Screen.screen_step (F := RefFormat.format)
      (Screen.screen_step (F := RefFormat.format) Screen.initialState
         (Screen.ConfirmLeg (Samples.leg 150 call buy 1 5)))
      (Screen.TapOption
         {| Screen.opt_strike := 150; Screen.opt_type := Some call |}) in
  Screen.st_selectedOptions st' = []
  /\ Screen.st_payoffData st'
     = Screen.calculatePayoff (F := RefFormat.format)
         [Samples.leg 150 call buy 1 5]
         (Screen.st_currentPrice Screen.initialState)
  /\ Screen.diagramShown st' = true.
Proof.
  apply (payoff_diagram_outlives_selection (F := RefFormat.format)
           Screen.initialState (Samples.leg 150 call buy 1 5)
           {| Screen.opt_strike := 150; Screen.opt_type := Some call |});
    reflexivity.
Defined.
